(** * Consistency checks of ccpp_capgen: metadata headers against Fortran headers

    A shallow embedding of [scripts/ccpp_capgen.py]: the comparison of one
    metadata header with the header parsed from the Fortran source
    ([compare_fheader_to_mheader] and its helpers), the pairing of the
    headers of one file ([check_fortran_against_metadata]) and the two loops
    that fold the headers of many files into the host and scheme collections
    ([parse_host_model_files], [parse_scheme_files]).

    Python strings are [string]s whose characters are read as the code
    points 0..255; Python integers are [Z]; [None] is [None]; an exception
    is a value of [result].  The functions this script imports from other
    modules (the metadata parser, the Fortran parser, the dimension
    conversion, the file system) are the variables of the sections below.
    Logging has no part in what is computed and is left out. *)

From Stdlib Require Import ZArith Lia Ascii DecimalString.
From Stdlib Require String.
From stdpp Require Import base option list strings gmap.

Local Open Scope Z_scope.

(** ** Python values and exceptions *)

(** What a call can end in: a value, the [CCPPError] the script raises with
    its message, or the exception [str.format] raises on a malformed or
    under-supplied format string. *)
Inductive result (A : Type) : Type :=
| Ok (a : A)
| CCPPError (msg : string)
| FormatError.
Arguments Ok {A} a.
Arguments CCPPError {A} msg.
Arguments FormatError {A}.

Global Instance result_ret : MRet result := λ A, Ok.
Global Instance result_bind : MBind result := λ A B k r,
  match r with
  | Ok a => k a
  | CCPPError msg => CCPPError msg
  | FormatError => FormatError
  end.

Definition raises {A} (r : result A) : Prop :=
  match r with Ok _ => False | _ => True end.

(** Two calls end in the same exception. *)
Definition same_failure {A B} (r : result A) (r' : result B) : Prop :=
  match r, r' with
  | CCPPError msg, CCPPError msg' => msg = msg'
  | FormatError, FormatError => True
  | _, _ => False
  end.

(** ** Strings as Python uses them *)

Definition nl : string := String (ascii_of_nat 10) "".

(** [str(n)] for an integer. *)
Definition str_of_Z (n : Z) : string := NilZero.string_of_int (Z.to_int n).

(** [str(v)] as [format] renders a property value: the text, or [None]. *)
Definition str_of_prop (v : option string) : string :=
  match v with Some s => s | None => "None" end.

(** [c.lower()] on the code points 0..255: A-Z and the Latin-1 capitals. *)
Definition lower_char (c : ascii) : ascii :=
  let n := N_of_ascii c in
  if ((65 <=? n) && (n <=? 90) ||
      (192 <=? n) && (n <=? 222) && negb (n =? 215))%N
  then ascii_of_N (n + 32) else c.

Fixpoint lower (s : string) : string :=
  match s with
  | EmptyString => EmptyString
  | String c r => String (lower_char c) (lower r)
  end.

(** [c.isspace()] on the code points 0..255. *)
Definition isspace (c : ascii) : bool :=
  let n := N_of_ascii c in
  ((9 <=? n) && (n <=? 13) || (28 <=? n) && (n <=? 32) ||
   (n =? 133) || (n =? 160))%N.

Fixpoint lstrip (s : string) : string :=
  match s with
  | EmptyString => EmptyString
  | String c r => if isspace c then lstrip r else s
  end.

(** [s.strip()]: white space removed at both ends. *)
Definition strip (s : string) : string :=
  String.rev (lstrip (String.rev (lstrip s))).

(** [c in s] for a one-character [c]. *)
Fixpoint contains (c : ascii) (s : string) : bool :=
  match s with
  | EmptyString => false
  | String a r => if Ascii.eqb a c then true else contains c r
  end.

(** [s.split(c)] for a one-character separator: never the empty list. *)
Fixpoint split (c : ascii) (s : string) : list string :=
  match s with
  | EmptyString => [EmptyString]
  | String a r =>
      if Ascii.eqb a c then EmptyString :: split c r
      else match split c r with
           | h :: t => String a h :: t
           | [] => [String a EmptyString]
           end
  end.

(** [sep.join(l)]. *)
Fixpoint join (sep : string) (l : list string) : string :=
  match l with
  | [] => ""
  | [x] => x
  | x :: r => x +:+ sep +:+ join sep r
  end.

(** [s.count(c)], the number of matches of [re.findall] for one character. *)
Fixpoint count_char (c : ascii) (s : string) : Z :=
  match s with
  | EmptyString => 0
  | String a r => (if Ascii.eqb a c then 1 else 0) + count_char c r
  end.

Definition nonempty (s : string) : bool :=
  match s with EmptyString => false | _ => true end.

(** [template.format(a1, ..., an)] for a template whose replacement fields are all
    the automatic field [{}]: doubled braces are literal braces, a field
    takes the next argument, and a lone brace, any other field or a missing
    argument raise. *)
Fixpoint py_format (s : string) (args : list string) : option string :=
  match s with
  | EmptyString => Some EmptyString
  | String c r =>
      if Ascii.eqb c "{" then
        match r with
        | String c' r' =>
            if Ascii.eqb c' "{" then String "{"%char <$> py_format r' args
            else if Ascii.eqb c' "}" then
              match args with
              | a :: args' => String.append a <$> py_format r' args'
              | [] => None
              end
            else None
        | EmptyString => None
        end
      else if Ascii.eqb c "}" then
        match r with
        | String c' r' =>
            if Ascii.eqb c' "}" then String "}"%char <$> py_format r' args
            else None
        | EmptyString => None
        end
      else String c <$> py_format r args
  end.

(** [add_error]: errors are separated by a newline. *)
Definition add_error (error_string new_error : string) : string :=
  (if nonempty error_string then error_string +:+ nl else error_string)
  +:+ new_error.

(** [is_arrayspec]: the local name is an array reference. *)
Definition is_arrayspec (local_name : string) : bool :=
  contains "("%char local_name.

(** ** Variables and headers *)

(** A variable of a header, metadata or Fortran alike.  [get_prop_value]
    gives [None] for a property the variable does not have.  [context] is
    the text [context_string] of [parse_tools] renders for the variable. *)
Record Var : Type := mkVar {
  local_name : string;
  standard_name : option string;
  var_type : option string;
  kind : option string;
  intent : option string;
  dimensions : list string;
  context : string
}.

Definition get_prop_value (prop_name : string) (v : Var) : option string :=
  if String.eqb prop_name "local_name" then Some (local_name v)
  else if String.eqb prop_name "standard_name" then standard_name v
  else if String.eqb prop_name "type" then var_type v
  else if String.eqb prop_name "kind" then kind v
  else if String.eqb prop_name "intent" then intent v
  else None.

Definition get_dimensions (v : Var) : list string := dimensions v.

(** A header as the metadata parser and the Fortran parser both produce it.
    [start_context] is the rendered context of the header's first line and
    [context_filename] is [context.filename], which may be [None]. *)
Record Header : Type := mkHeader {
  title : string;
  header_type : string;
  variable_list : list Var;
  has_variables : bool;
  start_context : string;
  context_filename : option string
}.

(** Metadata table types which can have extra variables in Fortran. *)
Definition _EXTRA_VARIABLE_TABLE_TYPES : list string := ["module"; "host"; "ddt"].

(** Metadata table types where order is significant. *)
Definition _ORDERED_TABLE_TYPES : list string := ["scheme"].

(** [x in l] for a list of strings. *)
Definition str_in (x : string) (l : list string) : bool :=
  existsb (String.eqb x) l.

(** ** find_var_in_list *)

(** The loop of [find_var_in_list] from position [lind] on: the first
    variable whose lowered local name is [lname], with its index. *)
Fixpoint find_var_from (lname : string) (lind : Z) (var_list : list Var)
  : option Var * Z :=
  match var_list with
  | [] => (None, -1)
  | lvar :: rest =>
      if String.eqb (lower (local_name lvar)) lname then (Some lvar, lind)
      else find_var_from lname (lind + 1) rest
  end.

Definition find_var_in_list (local_name : string) (var_list : list Var)
  : option Var * Z :=
  find_var_from (lower local_name) 0 var_list.

(** ** var_comp *)

Definition prop_eqb (a b : option string) : bool :=
  match a, b with
  | Some x, Some y => String.eqb x y
  | None, None => true
  | _, _ => false
  end.

Definition var_comp (prop_name : string) (mvar fvar : Var) (title : string)
    (case_sensitive : bool) : string :=
  let errors := "" in
  let mprop := get_prop_value prop_name mvar in
  let fprop := get_prop_value prop_name fvar in
  let mprop := if case_sensitive then mprop else lower <$> mprop in
  let fprop := if case_sensitive then fprop else lower <$> fprop in
  let comp := prop_eqb mprop fprop in
  if negb comp then
    let ctx := context mvar in
    add_error errors
      (prop_name +:+ " mismatch (" +:+ str_of_prop mprop +:+ " != " +:+
       str_of_prop fprop +:+ ") in " +:+ title +:+ ctx)
  else errors.

Section Compare.

(** [mheader.convert_dims_to_standard_names(fvar)] of [metadata_table]: the
    dimensions of a Fortran variable in the standard names of the metadata
    header. *)
Variable convert_dims_to_standard_names : Header → Var → list string.

(** ** dims_comp *)

(** A dimension with the bounds of a range stripped. *)
Definition strip_range (dim : string) : string :=
  if contains ":" dim then join ":" (strip <$> split ":" dim) else dim.

(** One turn of the loop over [enumerate(mdims)]; [fdim_raw] is
    [fdims[dim_ind]], which exists since the ranks are equal. *)
Definition dim_comp (mvar : Var) (title : string) (case_sensitive : bool)
    (errors : string) (dim_ind : Z) (mdim fdim_raw : string) : string :=
  let mdim := strip_range mdim in
  let fdim := strip fdim_raw in
  let fdim := strip_range fdim in
  let mdim := if case_sensitive then mdim else lower mdim in
  let fdim := if case_sensitive then fdim else lower fdim in
  (* Naked colon is okay for Fortran side *)
  let comp := str_in fdim [":"; fdim] in
  if negb comp then
    let stdname := get_prop_value "standard_name" mvar in
    let ctx := context mvar in
    add_error errors
      ("Error: dim " +:+ str_of_Z (dim_ind + 1) +:+ " mismatch (" +:+ mdim +:+
       " != " +:+ fdim_raw +:+ ") in " +:+ title +:+ "/" +:+
       str_of_prop stdname +:+ ctx)
  else errors.

Fixpoint dims_loop (mvar : Var) (title : string) (case_sensitive : bool)
    (dim_ind : Z) (mdims fdims : list string) (errors : string) : string :=
  match mdims, fdims with
  | mdim :: mdims', fdim :: fdims' =>
      dims_loop mvar title case_sensitive (dim_ind + 1) mdims' fdims'
        (dim_comp mvar title case_sensitive errors dim_ind mdim fdim)
  | _, _ => errors
  end.

Definition dims_comp (mheader : Header) (mvar fvar : Var) (title : string)
    (case_sensitive : bool) : string :=
  let errors := "" in
  let mdims := get_dimensions mvar in
  let fdims := convert_dims_to_standard_names mheader fvar in
  let comp := Z.of_nat (length mdims) =? Z.of_nat (length fdims) in
  let errors :=
    if negb comp then
      let stdname := get_prop_value "standard_name" mvar in
      let ctx := context mvar in
      add_error errors
        ("Error: rank mismatch in " +:+ title +:+ "/" +:+ str_of_prop stdname
         +:+ " (" +:+ str_of_Z (Z.of_nat (length mdims)) +:+ " != " +:+
         str_of_Z (Z.of_nat (length fdims)) +:+ ")" +:+ ctx)
    else errors in
  if comp then dims_loop mvar title case_sensitive 0 mdims fdims errors
  else errors.

(** ** compare_fheader_to_mheader *)

(** The metadata count with the array references taken out. *)
Definition count_mlen (mlist : list Var) : Z :=
  fold_left (λ mlen mvar,
               if is_arrayspec (local_name mvar) then mlen - 1 else mlen)
            mlist (Z.of_nat (length mlist)).

(** The length check: [None] when [list_match] ends true, and else the
    [etype] that is blamed. *)
Definition missing_from (fht : string) (mlen flen : Z) : option string :=
  let list_match := mlen =? flen in
  if negb list_match then
    if str_in fht _EXTRA_VARIABLE_TABLE_TYPES then
      if flen >? mlen then None else Some ("Fortran " +:+ fht)
    else if flen >? mlen then Some "metadata header"
    else Some ("Fortran " +:+ fht)
  else None.

Definition arity_errors (title fht : string) (mlen flen : Z) : string :=
  let errors_found := "" in
  match missing_from fht mlen flen with
  | Some etype =>
      add_error errors_found
        ("Variable mismatch in " +:+ title +:+ ", variables missing from " +:+
         etype +:+ ".")
  | None => errors_found
  end.

(** [errs] added to [errors_found] when it is not empty. *)
Definition add_if (errors_found errs : string) : string :=
  if nonempty errs then add_error errors_found errs else errors_found.

(** One turn of the loop over [enumerate(mlist)]. *)
Definition compare_var (meta_header fort_header : Header)
    (errors_found : string) (mind : Z) (mvar : Var) : string :=
  let title := title meta_header in
  let fht := header_type fort_header in
  let flist := variable_list fort_header in
  let flen := Z.of_nat (length flist) in
  let lname := local_name mvar in
  let arrayref := is_arrayspec lname in
  let '(fvar, find) := find_var_in_list lname flist in
  if mind >=? flen then
    if arrayref then errors_found
    else match fvar with
         | None =>
             add_error errors_found
               ("No Fortran variable for " +:+ lname +:+ " in " +:+ title)
         | Some _ => errors_found
         end
  else
    match fvar with
    | None =>
        add_error errors_found
          ("Variable mismatch in " +:+ title +:+ ", no Fortran variable " +:+
           lname +:+ ".")
    | Some fvar =>
        if str_in fht _ORDERED_TABLE_TYPES && negb (find =? mind) then
          add_error errors_found
            ("Out of order argument, " +:+ lname +:+ " in " +:+ title)
        else if arrayref then errors_found
        else
          let errs := var_comp "local_name" mvar fvar title false in
          if nonempty errs then add_error errors_found errs
          else
            let errors_found :=
              add_if errors_found (var_comp "type" mvar fvar title false) in
            let errors_found :=
              add_if errors_found (var_comp "kind" mvar fvar title false) in
            let errors_found :=
              if String.eqb (header_type meta_header) "scheme" then
                add_if errors_found (var_comp "intent" mvar fvar title false)
              else errors_found in
            add_if errors_found (dims_comp meta_header mvar fvar title false)
    end.

Fixpoint compare_vars (meta_header fort_header : Header) (mind : Z)
    (mlist : list Var) (errors_found : string) : string :=
  match mlist with
  | [] => errors_found
  | mvar :: rest =>
      compare_vars meta_header fort_header (mind + 1) rest
        (compare_var meta_header fort_header errors_found mind mvar)
  end.

Definition compare_fheader_to_mheader (meta_header fort_header : Header)
  : result string :=
  let title := title meta_header in
  let mht := header_type meta_header in
  let fht := header_type fort_header in
  if negb (String.eqb mht fht) then
    (* Special case, host metadata can be in a Fortran module or scheme *)
    if negb (String.eqb mht "host") || negb (str_in fht ["module"; "scheme"])
    then
      CCPPError ("Metadata table type mismatch for " +:+ title +:+ ", " +:+
                 mht +:+ " != " +:+ fht +:+ start_context meta_header)
    else Ok ""
  else
    let mlist := variable_list meta_header in
    let flist := variable_list fort_header in
    let flen := Z.of_nat (length flist) in
    let mlen := count_mlen mlist in
    Ok (compare_vars meta_header fort_header 0 mlist
          (arity_errors title fht mlen flen)).

End Compare.

(** ** check_fortran_against_metadata *)

(** The inner search: the first Fortran header with the title is popped
    from the list. *)
Fixpoint pop_title (mtitle : string) (fort_headers : list Header)
  : option (Header * list Header) :=
  match fort_headers with
  | [] => None
  | fh :: rest =>
      if String.eqb (title fh) mtitle then Some (fh, rest)
      else '(fheader, rest') ← pop_title mtitle rest; Some (fheader, fh :: rest')
  end.

(** The first loop.  [header_dict] is keyed by the metadata header objects,
    which are distinct objects of one parse, so every turn adds an entry;
    the Fortran headers left over are returned with it. *)
Fixpoint pair_headers (meta_headers fort_headers : list Header)
    (ffilename : string) (header_dict : list (Header * Header))
  : result (list (Header * Header) * list Header) :=
  match meta_headers with
  | [] => Ok (header_dict, fort_headers)
  | mheader :: rest =>
      let mtitle := title mheader in
      match pop_title mtitle fort_headers with
      | None =>
          CCPPError ("No matching Fortran routine found for " +:+ mtitle +:+
                     " in " +:+ ffilename)
      | Some (fheader, fort_headers) =>
          pair_headers rest fort_headers ffilename
            (header_dict ++ [(mheader, fheader)])
      end
  end.

(** The loop over the Fortran headers left over: the message built so far
    is formatted again at every header that has variables. *)
Fixpoint unmatched_errmsg (fort_headers : list Header) (mfilename : string)
    (errmsg sep : string) : result string :=
  match fort_headers with
  | [] => Ok errmsg
  | fheader :: rest =>
      if has_variables fheader then
        let errmsg :=
          errmsg +:+ sep +:+ "No matching metadata header found for {} in {}" in
        match py_format errmsg [title fheader; mfilename] with
        | None => FormatError
        | Some errmsg => unmatched_errmsg rest mfilename errmsg nl
        end
      else unmatched_errmsg rest mfilename errmsg sep
  end.

Definition check_unmatched (fort_headers : list Header) (mfilename : string)
  : result unit :=
  match fort_headers with
  | [] => Ok ()
  | _ =>
      errmsg ← unmatched_errmsg fort_headers mfilename "" "";
      if nonempty errmsg then CCPPError errmsg else Ok ()
  end.

(** The pairing of the headers of one file: every metadata header gets its
    Fortran header, and no Fortran header with variables is left over. *)
Definition pair_all (meta_headers fort_headers : list Header)
    (mfilename ffilename : string) : result (list (Header * Header)) :=
  '(header_dict, fort_headers) ←
     pair_headers meta_headers fort_headers ffilename [];
  _ ← check_unmatched fort_headers mfilename;
  Ok header_dict.

Section Check.

Variable convert_dims_to_standard_names : Header → Var → list string.

(** The loop over [header_dict], taken in the order in which the entries
    were put in: the diagnostics are concatenated as they are, and a
    comparison that raises ends the loop. *)
Fixpoint compare_headers (header_dict : list (Header * Header))
    (errors_found : string) : result string :=
  match header_dict with
  | [] => Ok errors_found
  | (mheader, fheader) :: rest =>
      errs ← compare_fheader_to_mheader convert_dims_to_standard_names
               mheader fheader;
      compare_headers rest (errors_found +:+ errs)
  end.

Definition num_errors (errors_found : string) : Z :=
  count_char (ascii_of_nat 10) errors_found + 1.

Definition consistency_message (errors_found mfilename ffilename : string)
  : string :=
  let num_errors := num_errors errors_found in
  errors_found +:+ nl +:+ str_of_Z num_errors +:+ " error" +:+
  (if num_errors >? 1 then "s" else "") +:+ " found comparing " +:+
  mfilename +:+ " to " +:+ ffilename.

Definition check_fortran_against_metadata (meta_headers fort_headers : list Header)
    (mfilename ffilename : string) : result unit :=
  header_dict ← pair_all meta_headers fort_headers mfilename ffilename;
  (* We have a one-to-one set, compare headers *)
  errors_found ← compare_headers header_dict "";
  if nonempty errors_found then
    CCPPError (consistency_message errors_found mfilename ffilename)
  else Ok ().

End Check.

(** ** find_associated_fortran_file *)

(** Recognized Fortran filename extensions. *)
Definition _FORTRAN_FILENAME_EXTENSIONS : list string := ["F90"; "f90"; "F"; "f"].

(** [filename[0:lastdot+1]] when the name has a dot. *)
Fixpoint upto_last_dot (filename : string) : option string :=
  match filename with
  | EmptyString => None
  | String c r =>
      match upto_last_dot r with
      | Some p => Some (String c p)
      | None => if Ascii.eqb c "." then Some (String c EmptyString) else None
      end
  end.

(** A call of the metadata parser: the file and the [known_ddts] it got. *)
Abbreviation parse_call := (string * list string)%type.

(** A step of the run: it is given the calls of the metadata parser made so
    far and returns them with its own added, also when it raises. *)
Definition run (A : Type) : Type := list parse_call → list parse_call * result A.

Global Instance run_ret : MRet run := λ A a calls, (calls, Ok a).
Global Instance run_bind : MBind run := λ A B k m calls,
  match m calls with
  | (calls, Ok a) => k a calls
  | (calls, CCPPError msg) => (calls, CCPPError msg)
  | (calls, FormatError) => (calls, FormatError)
  end.

(** A step that calls no parser. *)
Definition no_call {A} (r : result A) : run A := λ calls, (calls, r).

Section Aggregate.

Variable convert_dims_to_standard_names : Header → Var → list string.

(** [MetadataTable.parse_metadata_file(filename, known_ddts, logger)]: the
    headers of a metadata file, read with the derived types known so far.
    The parser is taken to read [known_ddts] and leave it as it is. *)
Variable parse_metadata_file : string → list string → result (list Header).

(** [parse_fortran_file(fort_file, preproc_defs, logger)]. *)
Variable parse_fortran_file : string → string → result (list Header).

(** [os.path.exists]. *)
Variable path_exists : string → bool.

(** The call of the metadata parser, which is added to the calls made. *)
Definition call_parse_metadata_file (filename : string)
    (known_ddts : list string) : run (list Header) :=
  λ calls, (calls ++ [(filename, known_ddts)],
            parse_metadata_file filename known_ddts).

Definition find_associated_fortran_file (filename : string) : result string :=
  let base :=
    match upto_last_dot filename with
    | None => filename +:+ "."
    | Some base => base
    end in
  match List.find path_exists ((λ extension, base +:+ extension) <$>
                               _FORTRAN_FILENAME_EXTENSIONS) with
  | Some fort_filename => Ok fort_filename
  | None =>
      CCPPError ("Cannot find Fortran file associated with " +:+ filename)
  end.

(** The message of a duplicate title; [oheader] is the header registered
    first. *)
Definition duplicate_message (header oheader : Header) (filename : string)
  : string :=
  let errmsg :=
    "Duplicate " +:+ header_type header +:+ ", " +:+ title header +:+
    ", found in " +:+ filename in
  match context_filename oheader with
  | Some ofile => errmsg +:+ ", original found in " +:+ ofile
  | None => errmsg
  end.

(** *** parse_host_model_files *)

(** The locals [meta_headers] and [known_ddts] of [parse_host_model_files]. *)
Record host_state : Type := mkHostState {
  host_meta_headers : gmap string Header;
  host_known_ddts : list string
}.

(** One turn of "Check for duplicates, then add to dict". *)
Definition register_host_header (filename : string) (st : host_state)
    (header : Header) : result host_state :=
  match host_meta_headers st !! title header with
  | None =>
      Ok {| host_meta_headers := <[title header := header]> (host_meta_headers st);
            host_known_ddts :=
              if String.eqb (header_type header) "ddt"
              then host_known_ddts st ++ [title header]
              else host_known_ddts st |}
  | Some oheader => CCPPError (duplicate_message header oheader filename)
  end.

Fixpoint register_host_headers (filename : string) (mheaders : list Header)
    (st : host_state) : result host_state :=
  match mheaders with
  | [] => Ok st
  | header :: rest =>
      st ← register_host_header filename st header;
      register_host_headers filename rest st
  end.

(** The body of the loop over [host_filenames]. *)
Definition host_file (preproc_defs : string) (st : host_state)
    (filename : string) : run host_state :=
  mheaders ← call_parse_metadata_file filename (host_known_ddts st);
  no_call (
    fort_file ← find_associated_fortran_file filename;
    fheaders ← parse_fortran_file fort_file preproc_defs;
    _ ← check_fortran_against_metadata convert_dims_to_standard_names
          mheaders fheaders filename fort_file;
    register_host_headers filename mheaders st).

Fixpoint host_files_loop (preproc_defs : string) (host_filenames : list string)
    (st : host_state) : run host_state :=
  match host_filenames with
  | [] => mret st
  | filename :: rest =>
      st ← host_file preproc_defs st filename;
      host_files_loop preproc_defs rest st
  end.

(** The locals at the return of [parse_host_model_files]: the title map is
    what [HostModel] is built from. *)
Definition parse_host_model_files (host_filenames : list string)
    (preproc_defs : string) : run host_state :=
  host_files_loop preproc_defs host_filenames
    {| host_meta_headers := ∅; host_known_ddts := [] |}.

(** *** parse_scheme_files *)

(** The locals [meta_headers], [header_dict] and [known_ddts] of
    [parse_scheme_files]. *)
Record scheme_state : Type := mkSchemeState {
  scheme_meta_headers : list Header;
  scheme_header_dict : gmap string Header;
  scheme_known_ddts : list string
}.

Definition register_scheme_header (filename : string) (st : scheme_state)
    (header : Header) : result scheme_state :=
  match scheme_header_dict st !! title header with
  | Some oheader => CCPPError (duplicate_message header oheader filename)
  | None =>
      Ok {| scheme_meta_headers := scheme_meta_headers st ++ [header];
            scheme_header_dict := <[title header := header]> (scheme_header_dict st);
            scheme_known_ddts :=
              if String.eqb (header_type header) "ddt"
              then scheme_known_ddts st ++ [title header]
              else scheme_known_ddts st |}
  end.

Fixpoint register_scheme_headers (filename : string) (mheaders : list Header)
    (st : scheme_state) : result scheme_state :=
  match mheaders with
  | [] => Ok st
  | header :: rest =>
      st ← register_scheme_header filename st header;
      register_scheme_headers filename rest st
  end.

Definition scheme_file (preproc_defs : string) (st : scheme_state)
    (filename : string) : run scheme_state :=
  mheaders ← call_parse_metadata_file filename (scheme_known_ddts st);
  no_call (
    fort_file ← find_associated_fortran_file filename;
    fheaders ← parse_fortran_file fort_file preproc_defs;
    _ ← check_fortran_against_metadata convert_dims_to_standard_names
          mheaders fheaders filename fort_file;
    register_scheme_headers filename mheaders st).

Fixpoint scheme_files_loop (preproc_defs : string)
    (scheme_filenames : list string) (st : scheme_state) : run scheme_state :=
  match scheme_filenames with
  | [] => mret st
  | filename :: rest =>
      st ← scheme_file preproc_defs st filename;
      scheme_files_loop preproc_defs rest st
  end.

Definition parse_scheme_files (scheme_filenames : list string)
    (preproc_defs : string) : run scheme_state :=
  scheme_files_loop preproc_defs scheme_filenames
    {| scheme_meta_headers := []; scheme_header_dict := ∅;
       scheme_known_ddts := [] |}.

(** *** capgen: the host files, then the scheme files *)

(** The two parses of [capgen], in its order. *)
Definition capgen_parse (host_files scheme_files : list string)
    (preproc_defs : string) : run (host_state * scheme_state) :=
  host_model ← parse_host_model_files host_files preproc_defs;
  scheme_headers ← parse_scheme_files scheme_files preproc_defs;
  mret (host_model, scheme_headers).

End Aggregate.

(** ** Concrete headers used in the examples below *)

(** Fortran dimensions that are standard names already. *)
Definition dims_as_declared : Header → Var → list string :=
  λ _ fvar, dimensions fvar.

Definition real_var (name : string) (dims : list string) : Var :=
  {| local_name := name; standard_name := Some (name +:+ "_std");
     var_type := Some "real"; kind := Some "kind_phys"; intent := Some "in";
     dimensions := dims; context := "" |}.

Definition header_of (ttl htype : string) (vars : list Var) : Header :=
  {| title := ttl; header_type := htype; variable_list := vars;
     has_variables := match vars with [] => false | _ => true end;
     start_context := ""; context_filename := None |}.

(** Scenario C of the specification: three Fortran arguments against two
    metadata variables of a scheme. *)
Definition scenario_c_meta : Header :=
  header_of "foo_run" "scheme" [real_var "a" []; real_var "b" []].

Definition scenario_c_fort : Header :=
  header_of "foo_run" "scheme" [real_var "a" []; real_var "b" []; real_var "c" []].

(** A metadata list with an array reference between two arguments. *)
Definition array_ref_meta : Header :=
  header_of "foo_run" "scheme"
    [real_var "a" ["n"]; real_var "a(1)" []; real_var "b" []].

Definition array_ref_fort : Header :=
  header_of "foo_run" "scheme" [real_var "a" ["n"]; real_var "b" []].

(** ** Agreement of a metadata variable and a Fortran variable *)

(** The two variables are identical in name, type, kind, intent and
    dimensions, the Fortran dimensions taken as standard names. *)
Definition var_identical (conv : Header → Var → list string) (mh : Header)
    (m f : Var) : Prop :=
  local_name m = local_name f ∧ var_type m = var_type f ∧ kind m = kind f ∧
  intent m = intent f ∧ dimensions m = conv mh f.

(** What the comparison asks of them: the same name, type, kind and intent
    up to letter case, and the same rank. *)
Definition var_agree (conv : Header → Var → list string) (mh : Header)
    (m f : Var) : Prop :=
  lower (local_name m) = lower (local_name f) ∧
  lower <$> var_type m = lower <$> var_type f ∧
  lower <$> kind m = lower <$> kind f ∧
  lower <$> intent m = lower <$> intent f ∧
  length (dimensions m) = length (conv mh f).

(** The lowered local names of a list of variables. *)
Definition lnames (l : list Var) : list string :=
  (λ v, lower (local_name v)) <$> l.

(** The diagnostic of a variable found at another place than its own. *)
Definition out_of_order (lname ttl : string) : string :=
  "Out of order argument, " +:+ lname +:+ " in " +:+ ttl.

(** The lines of a diagnostic text, and how many of them start with a
    given text. *)
Definition lines (errors : string) : list string :=
  split (ascii_of_nat 10) errors.

Definition count_diagnostics (start errors : string) : nat :=
  length (List.filter (String.prefix start) (lines errors)).

(** A scheme with four arguments; in the metadata [x] and [v] have changed
    places. *)
Definition swapped_fort : Header :=
  header_of "foo_run" "scheme"
    [real_var "u" ["ncol"]; real_var "v" ["ncol"]; real_var "w" [];
     real_var "x" ["ncol"; "lev"]].

Definition swapped_meta : Header :=
  header_of "foo_run" "scheme"
    [real_var "u" ["ncol"]; real_var "x" ["ncol"; "lev"]; real_var "w" [];
     real_var "v" ["ncol"]].

(** A scheme with the arguments [a] and [b], which the metadata lists as
    [b] and [a]. *)
Definition two_args_fort : Header :=
  header_of "foo_run" "scheme" [real_var "a" []; real_var "b" []].

Definition two_args_meta : Header :=
  header_of "foo_run" "scheme" [real_var "b" []; real_var "a" []].





Definition state_module : Header :=
  header_of "state" "module"
    [real_var "ps" ["ncol"]; real_var "t" ["ncol"; "lev"]].

(** How many headers of a list have the title. *)
Definition titled (t : string) (hs : list Header) : nat :=
  length (filter (λ h, title h = t) hs).

(** The text has a character that is not a brace. *)
Fixpoint has_plain (s : string) : bool :=
  match s with
  | EmptyString => false
  | String c r =>
      negb (Ascii.eqb c "{") && negb (Ascii.eqb c "}") || has_plain r
  end.

(** The text has no brace. *)
Definition no_brace (s : string) : bool :=
  negb (contains "{" s) && negb (contains "}" s).

(** The diagnostics of the pairs of one file, one after the other. *)
Definition concat_all (ds : list string) : string :=
  foldr String.append "" ds.

(** The headers of a metadata file with two schemes, and of its Fortran
    file, which holds the two in the other order and a module without
    variables. *)
Definition foo_meta_headers : list Header :=
  [header_of "foo_init" "scheme" [real_var "a" []];
   header_of "foo_run" "scheme" [real_var "a" []; real_var "b" []]].

Definition foo_fort_headers : list Header :=
  [header_of "foo_run" "scheme" [real_var "a" []; real_var "b" []];
   header_of "foo" "module" [];
   header_of "foo_init" "scheme" [real_var "a" []]].

(** The headers of a file of three routines, and a metadata file that
    describes one of them only. *)
Definition three_routines : list Header :=
  [header_of "foo_init" "scheme" [real_var "a" []];
   header_of "foo_run" "scheme" [real_var "a" []; real_var "b" []];
   header_of "foo_finalize" "scheme" [real_var "a" []]].

Definition run_only : list Header :=
  [header_of "foo_run" "scheme" [real_var "a" []; real_var "b" []]].

(** ** A run on four files *)

(** The derived type [state_type], a host table and a scheme that use it. *)
Definition state_type_header : Header :=
  header_of "state_type" "ddt"
    [real_var "ps" ["ncol"]; real_var "t" ["ncol"; "lev"]].

Definition state_var : Var :=
  {| local_name := "state"; standard_name := Some "physics_state";
     var_type := Some "state_type"; kind := None; intent := Some "inout";
     dimensions := []; context := "" |}.

Definition host_mod_header : Header := header_of "host_mod" "host" [state_var].

Definition foo_run_header : Header := header_of "foo_run" "scheme" [state_var].

(** The files of the run: [host.meta] and [types.meta] both declare
    [state_type]; [host_mod.meta] and [foo.meta] use it.  The parsers give
    the headers of a file whatever [known_ddts] is. *)
Definition demo_files : list (string * list Header) :=
  [("host", [state_type_header]); ("host_mod", [host_mod_header]);
   ("foo", [foo_run_header]); ("types", [state_type_header])].

Definition demo_lookup (suffix filename : string) : result (list Header) :=
  match List.find (λ e, String.eqb (e.1 +:+ suffix) filename) demo_files with
  | Some e => Ok e.2
  | None => CCPPError ("cannot read " +:+ filename)
  end.

Definition demo_parse_metadata_file (filename : string)
    (known_ddts : list string) : result (list Header) :=
  demo_lookup ".meta" filename.

Definition demo_parse_fortran_file (fort_file preproc_defs : string)
  : result (list Header) :=
  demo_lookup ".F90" fort_file.

Definition demo_path_exists (path : string) : bool :=
  match demo_lookup ".F90" path with Ok _ => true | _ => false end.

(** The run from the start: the calls it makes and what it ends in. *)
Definition demo_run (host_files scheme_files : list string)
  : list parse_call * result (host_state * scheme_state) :=
  capgen_parse dims_as_declared demo_parse_metadata_file
    demo_parse_fortran_file demo_path_exists host_files scheme_files "" [].

(** ** Forward visibility of derived types in a list of parser calls *)

(** The title of every ddt header of the file of an earlier call is in the
    [known_ddts] of every later call. *)
Definition ddts_visible
    (parse_metadata_file : string → list string → result (list Header))
    (calls : list parse_call) : Prop :=
  ∀ i j fi ki fj kj hs h,
    (i < j)%nat → calls !! i = Some (fi, ki) → calls !! j = Some (fj, kj) →
    parse_metadata_file fi ki = Ok hs → h ∈ hs → header_type h = "ddt" →
    title h ∈ kj.

(** The title of every ddt header of the file of a call is in [known]. *)
Definition ddts_known
    (parse_metadata_file : string → list string → result (list Header))
    (known : list string) (calls : list parse_call) : Prop :=
  ∀ i fi ki hs h,
    calls !! i = Some (fi, ki) →
    parse_metadata_file fi ki = Ok hs → h ∈ hs → header_type h = "ddt" →
    title h ∈ known.

(** The calls of a run made for its host files, and for its scheme files:
    the scheme files come after all the host files. *)
Definition host_calls (host_files : list string) (calls : list parse_call)
  : list parse_call :=
  take (length host_files) calls.

Definition scheme_calls (host_files : list string) (calls : list parse_call)
  : list parse_call :=
  drop (length host_files) calls.

(** ** The titles of a collection *)

(** The scheme headers kept have distinct titles, and the titles of the
    dict are theirs. *)
Definition scheme_titles_unique (st : scheme_state) : Prop :=
  NoDup (title <$> scheme_meta_headers st) ∧
  ∀ t, is_Some (scheme_header_dict st !! t) ↔
       t ∈ title <$> scheme_meta_headers st.

(** Every host header is kept under its title. *)
Definition host_titles_keys (st : host_state) : Prop :=
  ∀ t h, host_meta_headers st !! t = Some h → title h = t.

(** ** delete_pathnames_from_file and clean_capgen *)

(** A line of the file of generated files names a path: it is not blank
    and does not start as a comment. *)
Definition names_path (path : string) : bool :=
  match path with
  | EmptyString => false
  | String c _ => negb (Ascii.eqb c "#") && negb (Ascii.eqb c "!")
  end.

Section Clean.

(** The file system, with [os.remove] (which gives [false] for an
    [OSError]), [os.path.exists], the lines [readlines] gives for a file,
    and the functions of [os.path] on names: [isabs], the directory of the
    absolute path of a file, and [normpath(join(root, path))]. *)
Variable World : Type.
Variable os_remove : string → World → World * bool.
Variable os_path_exists : string → World → bool.
Variable readlines : string → World → list string.
Variable isabs : string → bool.
Variable dirname_abspath : string → string.
Variable normpath_join : string → string → string.

(** The file system, the paths whose removal was tried so far (ghost
    state), and the local [success]. *)
Record clean_state : Type := mkCleanState {
  clean_world : World;
  clean_tried : list string;
  clean_success : bool
}.

(** [try: os.remove(path)  except OSError: success = False]. *)
Definition try_remove (path : string) (st : clean_state) : clean_state :=
  let '(w, removed) := os_remove path (clean_world st) in
  {| clean_world := w;
     clean_tried := clean_tried st ++ [path];
     clean_success := if removed then clean_success st else false |}.

(** One turn of the loop over the lines of the file. *)
Definition delete_line (root_path : string) (st : clean_state) (line : string)
  : clean_state :=
  let path := strip line in
  (* Skip blank lines and lines which appear to start with a comment. *)
  if names_path path then
    (* Assume relative pathnames are relative to pathsfile *)
    let path := if negb (isabs path) then normpath_join root_path path
                else path in
    try_remove path st
  else st.

(** The lines are read at once, before any removal; the file is taken to
    be one that [open] can read. *)
Definition delete_pathnames_from_file (capfile : string) (w : World)
  : clean_state :=
  let root_path := dirname_abspath capfile in
  let st := {| clean_world := w; clean_tried := []; clean_success := true |} in
  let st := fold_left (delete_line root_path) (readlines capfile w) st in
  try_remove capfile st.

(** [clean_capgen]: nothing is removed when the file is not found. *)
Definition clean_capgen (cap_output_file : string) (w : World) : clean_state :=
  if os_path_exists cap_output_file w then
    delete_pathnames_from_file cap_output_file w
  else {| clean_world := w; clean_tried := []; clean_success := false |}.



End Clean.

(** A file system that is the list of the paths that exist, for examples:
    a removal succeeds when the path is there. *)
Definition toy_remove (path : string) (w : list string) : list string * bool :=
  (List.filter (λ p, negb (String.eqb p path)) w,
   existsb (String.eqb path) w).

Definition toy_lines (capfile : string) (w : list string) : list string :=
  ["# generated files" +:+ nl; nl; "  foo_cap.F90 " +:+ nl;
   "!old_cap.F90" +:+ nl; "/build/kinds.F90" +:+ nl].

Definition toy_clean (w : list string) : clean_state (list string) :=
  clean_capgen (list string) toy_remove (λ p w, existsb (String.eqb p) w)
    toy_lines (λ p, match p with String "/" _ => true | _ => false end)
    (λ _, "/out") (λ root p, root +:+ "/" +:+ p) "/out/datatable.xml" w.

(** ** Texts and lists used to state what the functions return *)

(** The diagnostic of a metadata variable that the Fortran list does not
    have, at a place the Fortran list reaches. *)
Definition no_fortran_variable (ttl lname : string) : string :=
  "Variable mismatch in " +:+ ttl +:+ ", no Fortran variable " +:+ lname +:+ ".".

(** The line of a Fortran header that no metadata header was found for. *)
Definition unmatched_message (ttl mfilename : string) : string :=
  "No matching metadata header found for " +:+ ttl +:+ " in " +:+ mfilename.

(** The message raised for two table types that do not go together. *)
Definition type_mismatch_message (mh fh : Header) : string :=
  "Metadata table type mismatch for " +:+ title mh +:+ ", " +:+
  header_type mh +:+ " != " +:+ header_type fh +:+ start_context mh.

(** The diagnostic of two ranks that differ. *)
Definition rank_mismatch_message (mvar : Var) (ttl : string) (mrank frank : nat)
  : string :=
  "Error: rank mismatch in " +:+ ttl +:+ "/" +:+
  str_of_prop (standard_name mvar) +:+ " (" +:+ str_of_Z (Z.of_nat mrank) +:+
  " != " +:+ str_of_Z (Z.of_nat frank) +:+ ")" +:+ context mvar.

(** The variable has a name that no variable of the list has, up to case. *)
Definition absent_from (flist : list Var) (m : Var) : bool :=
  negb (str_in (lower (local_name m)) (lnames flist)).

Definition is_ddt (h : Header) : bool := String.eqb (header_type h) "ddt".

(** The headers the metadata parser returned at the calls, in their order. *)
Definition parsed_headers
    (parse_metadata_file : string → list string → result (list Header))
    (calls : list parse_call) : list Header :=
  concat ((λ c, match parse_metadata_file c.1 c.2 with
                | Ok hs => hs
                | _ => []
                end) <$> calls).

(** The titles of the ddt headers the parser returned at the calls, in
    their order. *)
Definition ddt_titles
    (parse_metadata_file : string → list string → result (list Header))
    (calls : list parse_call) : list string :=
  title <$> List.filter is_ddt (parsed_headers parse_metadata_file calls).

(** Every call is made with the ddt titles of the calls before it, and
    with nothing else. *)
Definition known_from_earlier
    (parse_metadata_file : string → list string → result (list Header))
    (calls : list parse_call) : Prop :=
  ∀ j c, calls !! j = Some c →
         c.2 = ddt_titles parse_metadata_file (take j calls).

(** What the locals of [parse_scheme_files] hold when [L] is the list of
    the headers registered so far. *)
Definition scheme_holds (st : scheme_state) (L : list Header) : Prop :=
  scheme_meta_headers st = L ∧
  NoDup (title <$> L) ∧
  (∀ t h, scheme_header_dict st !! t = Some h ↔ h ∈ L ∧ title h = t) ∧
  scheme_known_ddts st = title <$> List.filter is_ddt L.

(** The same for the locals of [parse_host_model_files]. *)
Definition host_holds (st : host_state) (L : list Header) : Prop :=
  NoDup (title <$> L) ∧
  (∀ t h, host_meta_headers st !! t = Some h ↔ h ∈ L ∧ title h = t) ∧
  host_known_ddts st = title <$> List.filter is_ddt L.

(** A module with three variables, and a metadata table that lists two of
    them in the other order and one that the module does not have. *)
Definition wide_module : Header :=
  header_of "state" "module"
    [real_var "ps" ["ncol"]; real_var "t" ["ncol"; "lev"]; real_var "u" []].

Definition narrow_table : Header :=
  header_of "state" "module" [real_var "T" ["ncol"; "lev"]; real_var "PS" ["ncol"]].

Definition table_with_stranger : Header :=
  header_of "state" "module"
    [real_var "t" ["ncol"; "lev"]; real_var "q" []; real_var "ps" ["ncol"]].

(** * Properties *)

(** ** Strings *)

Example split_range : split ":" "im:jm" = ["im"; "jm"].
Proof. reflexivity. Qed.

Example split_colon : split ":" ":" = [""; ""].
Proof. reflexivity. Qed.

Example strip_both : strip "  a b  " = "a b".
Proof. reflexivity. Qed.

Example lower_ident : lower "Ab_Z9" = "ab_z9".
Proof. reflexivity. Qed.

Example py_format_fields :
  py_format "x {} y {{}} {}" ["a"; "bc"] = Some "x a y {} bc".
Proof. reflexivity. Qed.

Example str_of_Z_120 : str_of_Z 120 = "120".
Proof. reflexivity. Qed.

Lemma app_nil_r_s (s : string) : s +:+ "" = s.
Proof. induction s as [|c s IH]; [done|]. by rewrite <- IH at 2. Qed.

Lemma app_assoc_s (s1 s2 s3 : string) : (s1 +:+ s2) +:+ s3 = s1 +:+ s2 +:+ s3.
Proof.
  induction s1 as [|c s1 IH]; [done|].
  change (String c ((s1 +:+ s2) +:+ s3) = String c (s1 +:+ s2 +:+ s3)).
  by rewrite IH.
Qed.

Lemma nonempty_false (s : string) : nonempty s = false ↔ s = "".
Proof. by destruct s. Qed.

Lemma nonempty_true (s : string) : nonempty s = true ↔ s ≠ "".
Proof. by destruct s. Qed.

Lemma add_error_empty (e : string) : add_error "" e = e.
Proof. done. Qed.

(** [add_error] keeps what was there and adds to its end. *)
Lemma add_error_extends (errors e : string) :
  ∃ rest, add_error errors e = errors +:+ rest.
Proof.
  unfold add_error. destruct (nonempty errors).
  - exists (nl +:+ e). by rewrite app_assoc_s.
  - by exists e.
Qed.

Lemma add_if_extends (errors e : string) :
  ∃ rest, add_if errors e = errors +:+ rest.
Proof.
  unfold add_if. destruct (nonempty e).
  - apply add_error_extends.
  - exists "". by rewrite app_nil_r_s.
Qed.

Lemma add_if_empty (errors : string) : add_if errors "" = errors.
Proof. done. Qed.

Lemma prop_eqb_refl (a : option string) : prop_eqb a a = true.
Proof. destruct a; [apply String.eqb_refl | done]. Qed.

Lemma str_in_cons (x y : string) (l : list string) :
  str_in x (y :: l) = String.eqb x y || str_in x l.
Proof. done. Qed.

(** ** The dimension comparison *)

Section DimsFacts.

Variable conv : Header → Var → list string.

(** The comparison of one dimension adds nothing, whatever the two are. *)
Lemma dim_comp_silent mvar ttl cs errors i mdim fdim :
  dim_comp mvar ttl cs errors i mdim fdim = errors.
Proof.
  unfold dim_comp. rewrite !str_in_cons, String.eqb_refl.
  by rewrite orb_true_r.
Qed.

Lemma dims_loop_silent mvar ttl cs i mdims fdims errors :
  dims_loop mvar ttl cs i mdims fdims errors = errors.
Proof.
  revert i fdims errors.
  induction mdims as [|m mdims IH]; intros i [|f fdims] errors; try done.
  simpl. by rewrite IH, dim_comp_silent.
Qed.

(** With equal ranks [dims_comp] reports nothing. *)
Lemma dims_comp_equal_rank mh mvar fvar ttl cs :
  length (dimensions mvar) = length (conv mh fvar) →
  dims_comp conv mh mvar fvar ttl cs = "".
Proof.
  intros Hlen. unfold dims_comp, get_dimensions. rewrite Hlen, Z.eqb_refl.
  simpl. apply dims_loop_silent.
Qed.

End DimsFacts.

(** C1 (the code departs from the claim): at equal rank the dimension
    comparison of [dims_comp] tests the Fortran dimension against itself, so
    the metadata dimension [km2] against the Fortran dimension [km] gives no
    diagnostic, alone and inside the comparison of two module headers. *)
Theorem dims_comp_km2_vs_km_silent :
  let mvar := real_var "t" ["km2"] in
  let fvar := real_var "t" ["km"] in
  let mh := header_of "physics" "module" [mvar] in
  let fh := header_of "physics" "module" [fvar] in
  dims_comp dims_as_declared mh mvar fvar "physics" false = "" ∧
  compare_fheader_to_mheader dims_as_declared mh fh = Ok "".
Proof. split; reflexivity. Qed.

(** The two dimension cases of the claim that do hold: equal dimensions and
    a naked colon on the Fortran side give no diagnostic. *)
Example dims_comp_equal_and_colon :
  let mvar := real_var "t" ["im:jm"; "km"] in
  dims_comp dims_as_declared (header_of "physics" "module" [mvar]) mvar
    (real_var "t" ["IM : JM"; ":"]) "physics" false = "".
Proof. reflexivity. Qed.

(** A rank mismatch is reported. *)
Example dims_comp_rank :
  let mvar := real_var "t" ["im"; "km"] in
  dims_comp dims_as_declared (header_of "physics" "module" [mvar]) mvar
    (real_var "t" ["im"]) "physics" false =
  "Error: rank mismatch in physics/t_std (2 != 1)".
Proof. reflexivity. Qed.

(** ** The comparison of two headers *)

Section CompareFacts.

Variable conv : Header → Var → list string.

Lemma extends_trans (a b c : string) :
  (∃ r, b = a +:+ r) → (∃ r, c = b +:+ r) → ∃ r, c = a +:+ r.
Proof. intros [r1 ->] [r2 ->]. exists (r1 +:+ r2). by rewrite app_assoc_s. Qed.

Lemma extends_refl (a : string) : ∃ r, a = a +:+ r.
Proof. exists "". by rewrite app_nil_r_s. Qed.

Ltac extends :=
  repeat first
    [ apply extends_refl
    | apply add_error_extends
    | apply add_if_extends
    | eapply extends_trans; [|apply add_if_extends] ].

Lemma compare_var_extends mh fh errors mind mvar :
  ∃ rest, compare_var conv mh fh errors mind mvar = errors +:+ rest.
Proof.
  unfold compare_var.
  destruct (find_var_in_list _ _) as [[fvar|] find];
    repeat match goal with
           | |- context [if ?b then _ else _] => destruct b
           end;
    extends.
Qed.

(** The loop over the metadata variables only adds to the errors found
    before it. *)
Lemma compare_vars_extends mh fh mind mlist errors :
  ∃ rest, compare_vars conv mh fh mind mlist errors = errors +:+ rest.
Proof.
  revert mind errors. induction mlist as [|mvar mlist IH]; intros mind errors.
  - exists "". by rewrite app_nil_r_s.
  - simpl. destruct (compare_var_extends mh fh errors mind mvar) as [r1 ->].
    destruct (IH (mind + 1) (errors +:+ r1)) as [r2 ->].
    exists (r1 +:+ r2). by rewrite app_assoc_s.
Qed.

Lemma compare_vars_app mh fh mind l1 l2 errors :
  compare_vars conv mh fh mind (l1 ++ l2) errors =
  compare_vars conv mh fh (mind + Z.of_nat (length l1)) l2
    (compare_vars conv mh fh mind l1 errors).
Proof.
  revert mind errors. induction l1 as [|v l1 IH]; intros mind errors; simpl.
  - by rewrite Z.add_0_r.
  - rewrite IH. f_equal. lia.
Qed.

Lemma count_mlen_from (mlist : list Var) (z : Z) :
  fold_left (λ mlen mvar,
               if is_arrayspec (local_name mvar) then mlen - 1 else mlen)
            mlist z =
  z - Z.of_nat (length mlist) +
  Z.of_nat (length (List.filter (λ v, negb (is_arrayspec (local_name v))) mlist)).
Proof.
  revert z. induction mlist as [|v l IH]; intros z; simpl; [lia|].
  rewrite IH. destruct (is_arrayspec (local_name v)); simpl; lia.
Qed.

(** [mlen] is the number of metadata variables that are not array
    references. *)
Lemma count_mlen_filter (mlist : list Var) :
  count_mlen mlist =
  Z.of_nat (length (List.filter (λ v, negb (is_arrayspec (local_name v))) mlist)).
Proof. unfold count_mlen. rewrite count_mlen_from. lia. Qed.

(** C10: when the metadata header is a host table and the Fortran header a
    module or a scheme, [compare_fheader_to_mheader] checks nothing and
    returns the empty string, whatever the variables of the two headers. *)
Theorem compare_host_in_module_or_scheme (mh fh : Header) :
  header_type mh = "host" →
  header_type fh = "module" ∨ header_type fh = "scheme" →
  compare_fheader_to_mheader conv mh fh = Ok "".
Proof.
  intros Hm Hf. unfold compare_fheader_to_mheader. rewrite Hm.
  by destruct Hf as [-> | ->].
Qed.

(** Any other difference of the table types is raised at once. *)
Lemma compare_type_mismatch (mh fh : Header) :
  header_type mh ≠ header_type fh →
  ¬ (header_type mh = "host" ∧
     (header_type fh = "module" ∨ header_type fh = "scheme")) →
  compare_fheader_to_mheader conv mh fh =
  CCPPError ("Metadata table type mismatch for " +:+ title mh +:+ ", " +:+
             header_type mh +:+ " != " +:+ header_type fh +:+ start_context mh).
Proof.
  intros Hne Hnot. unfold compare_fheader_to_mheader.
  apply String.eqb_neq in Hne. rewrite Hne. simpl negb at 1. cbv iota.
  destruct (String.eqb (header_type mh) "host") eqn:Hh; [|done].
  apply String.eqb_eq in Hh.
  destruct (str_in (header_type fh) ["module"; "scheme"]) eqn:Hin; [|done].
  exfalso. apply Hnot. split; [done|].
  rewrite !str_in_cons in Hin.
  destruct (String.eqb_spec (header_type fh) "module"); [by left|].
  destruct (String.eqb_spec (header_type fh) "scheme"); [by right|done].
Qed.

(** C6: for two headers of one table type the comparison starts from the
    result of the length check, taken on the number of metadata variables
    that are not array references and the number of Fortran variables.  For
    a scheme the two must be equal: more Fortran variables blame the metadata
    header, fewer blame the Fortran scheme.  For a module, host or ddt more
    Fortran variables give no diagnostic of the length check. *)
Theorem arity_reconciliation (mh fh : Header) :
  header_type mh = header_type fh →
  let mcount :=
    length (List.filter (λ v, negb (is_arrayspec (local_name v)))
              (variable_list mh)) in
  let fcount := length (variable_list fh) in
  let blame etype :=
    "Variable mismatch in " +:+ title mh +:+ ", variables missing from " +:+
    etype +:+ "." in
  ∃ arity rest,
    compare_fheader_to_mheader conv mh fh =
      Ok (compare_vars conv mh fh 0 (variable_list mh) arity) ∧
    compare_fheader_to_mheader conv mh fh = Ok (arity +:+ rest) ∧
    (header_type fh = "scheme" →
       (mcount = fcount → arity = "") ∧
       ((mcount < fcount)%nat → arity = blame "metadata header") ∧
       ((fcount < mcount)%nat → arity = blame "Fortran scheme")) ∧
    (header_type fh = "module" ∨ header_type fh = "host" ∨
     header_type fh = "ddt" →
       (mcount ≤ fcount)%nat → arity = "").
Proof.
  intros Ht mcount fcount blame.
  set (arity := arity_errors (title mh) (header_type fh)
                  (count_mlen (variable_list mh)) (Z.of_nat fcount)).
  destruct (compare_vars_extends mh fh 0 (variable_list mh) arity) as [rest Hrest].
  exists arity, rest.
  assert (Hc : compare_fheader_to_mheader conv mh fh =
               Ok (compare_vars conv mh fh 0 (variable_list mh) arity)).
  { unfold compare_fheader_to_mheader. by rewrite Ht, String.eqb_refl. }
  split; [done|]. split; [by rewrite Hc, Hrest|].
  subst arity. unfold arity_errors, missing_from.
  rewrite count_mlen_filter. fold mcount.
  split.
  - intros ->. simpl. repeat split; intros H.
    + rewrite H, Z.eqb_refl. done.
    + destruct (Z.eqb_spec (Z.of_nat mcount) (Z.of_nat fcount)); [lia|].
      destruct (Z.gtb_spec (Z.of_nat fcount) (Z.of_nat mcount)); [done|lia].
    + destruct (Z.eqb_spec (Z.of_nat mcount) (Z.of_nat fcount)); [lia|].
      destruct (Z.gtb_spec (Z.of_nat fcount) (Z.of_nat mcount)); [lia|done].
  - intros Hty Hle.
    destruct (Z.eqb_spec (Z.of_nat mcount) (Z.of_nat fcount)); [done|].
    assert (Hin : str_in (header_type fh) _EXTRA_VARIABLE_TABLE_TYPES = true)
      by (by destruct Hty as [-> | [-> | ->]]).
    simpl negb. cbv iota. rewrite Hin.
    destruct (Z.gtb_spec (Z.of_nat fcount) (Z.of_nat mcount)); [done|lia].
Qed.

End CompareFacts.

Lemma arity_reconciliation_witness :
  header_type scenario_c_meta = header_type scenario_c_fort ∧
  ∃ arity rest,
    compare_fheader_to_mheader dims_as_declared scenario_c_meta scenario_c_fort
      = Ok (arity +:+ rest) ∧
    arity = "Variable mismatch in foo_run, variables missing from metadata header.".
Proof.
  split; [reflexivity|].
  destruct (arity_reconciliation dims_as_declared scenario_c_meta
              scenario_c_fort eq_refl) as (arity & rest & _ & H2 & Hs & _).
  exists arity, rest. split; [exact H2|].
  apply Hs; [reflexivity | simpl; lia].
Defined.

Lemma compare_host_in_module_or_scheme_witness :
  compare_fheader_to_mheader dims_as_declared
    (header_of "state" "host" [real_var "ps" ["ncol"]; real_var "u" []])
    (header_of "state" "module" [real_var "t" ["ncol"; "lev"]]) = Ok "".
Proof.
  apply compare_host_in_module_or_scheme; [reflexivity | left; reflexivity].
Defined.

(** C5 (the code departs from the claim): the array reference [a(1)] at a
    position below the number of Fortran variables is looked up in the
    Fortran list before the test that would skip it, and is reported as
    missing; the length check had left it out of the count (2 against 2). *)
Theorem array_reference_reported :
  count_mlen (variable_list array_ref_meta) = 2 ∧
  compare_fheader_to_mheader dims_as_declared array_ref_meta array_ref_fort =
  Ok "Variable mismatch in foo_run, no Fortran variable a(1).".
Proof. split; reflexivity. Qed.

(** Past the end of the Fortran list an array reference is passed over. *)
Example array_reference_at_end :
  compare_fheader_to_mheader dims_as_declared
    (header_of "state" "module" [real_var "a" ["n"]; real_var "a(1)" []])
    (header_of "state" "module" [real_var "a" ["n"]]) = Ok "".
Proof. reflexivity. Qed.

(** ** Variables that agree, and variables out of place *)

Section AgreeFacts.

Variable conv : Header → Var → list string.

Lemma var_identical_agree mh m f : var_identical conv mh m f → var_agree conv mh m f.
Proof.
  intros (Hn & Ht & Hk & Hi & Hd). unfold var_agree.
  by rewrite Hn, Ht, Hk, Hi, Hd.
Qed.

(** With distinct lowered names, a name is found where it stands. *)
Lemma find_var_from_lookup (flist : list Var) (lname : string) (i : Z)
    (k : nat) (f : Var) :
  NoDup (lnames flist) → flist !! k = Some f → lower (local_name f) = lname →
  find_var_from lname i flist = (Some f, i + Z.of_nat k).
Proof.
  revert i k. induction flist as [|h flist IH]; intros i k Hnd Hk Hname.
  - by rewrite lookup_nil in Hk.
  - apply NoDup_cons in Hnd as [Hh Hnd]. destruct k as [|k]; simpl in *.
    + injection Hk as ->. rewrite Hname, String.eqb_refl.
      by rewrite Z.add_0_r.
    + destruct (String.eqb_spec (lower (local_name h)) lname) as [Heq|_].
      * exfalso. apply Hh. rewrite Heq, <- Hname.
        apply list_elem_of_fmap. exists f. split; [done|].
        by eapply list_elem_of_lookup_2.
      * rewrite (IH (i + 1) k Hnd Hk Hname). f_equal. lia.
Qed.

Lemma find_var_in_list_lookup (flist : list Var) (name : string) (k : nat)
    (f : Var) :
  NoDup (lnames flist) → flist !! k = Some f →
  lower name = lower (local_name f) →
  find_var_in_list name flist = (Some f, Z.of_nat k).
Proof.
  intros Hnd Hk Hname. unfold find_var_in_list.
  by rewrite (find_var_from_lookup flist (lower name) 0 k f).
Qed.

(** A name that no Fortran variable has is not found. *)
Lemma find_var_from_none (flist : list Var) (lname : string) (i : Z) :
  lname ∉ lnames flist → find_var_from lname i flist = (None, -1).
Proof.
  revert i. induction flist as [|h flist IH]; intros i Hnot; [done|].
  simpl. apply not_elem_of_cons in Hnot as [Hne Hnot].
  destruct (String.eqb_spec (lower (local_name h)) lname); [congruence|].
  by apply IH.
Qed.

Lemma var_comp_agree (p : string) (m f : Var) (ttl : string) :
  lower <$> get_prop_value p m = lower <$> get_prop_value p f →
  var_comp p m f ttl false = "".
Proof. intros H. unfold var_comp. simpl. by rewrite H, prop_eqb_refl. Qed.

(** A metadata variable that stands where its Fortran variable stands and
    agrees with it adds no diagnostic. *)
Lemma compare_var_agree (mh fh : Header) (errors : string) (k : nat)
    (m f : Var) :
  NoDup (lnames (variable_list fh)) →
  variable_list fh !! k = Some f →
  var_agree conv mh m f →
  is_arrayspec (local_name m) = false →
  compare_var conv mh fh errors (Z.of_nat k) m = errors.
Proof.
  intros Hnd Hk (Hn & Ht & Hkd & Hi & Hd) Harr. unfold compare_var.
  rewrite (find_var_in_list_lookup _ _ k f Hnd Hk Hn), Harr.
  apply lookup_lt_Some in Hk.
  destruct (Z.geb_spec (Z.of_nat k) (Z.of_nat (length (variable_list fh))));
    [lia|].
  rewrite Z.eqb_refl, andb_false_r.
  rewrite (var_comp_agree "local_name") by (simpl; by rewrite Hn).
  simpl nonempty. cbv iota.
  rewrite (var_comp_agree "type"), (var_comp_agree "kind"),
    (var_comp_agree "intent"), dims_comp_equal_rank by done.
  rewrite !add_if_empty. by destruct (String.eqb _ _).
Qed.

(** A stretch of metadata variables that agree, place by place, with the
    Fortran variables from place [k] on adds no diagnostic. *)
Lemma compare_vars_agree (mh fh : Header) (l : list Var) (k : nat)
    (errors : string) :
  NoDup (lnames (variable_list fh)) →
  (∀ j m, l !! j = Some m →
     is_arrayspec (local_name m) = false ∧
     ∃ f, variable_list fh !! (k + j)%nat = Some f ∧ var_agree conv mh m f) →
  compare_vars conv mh fh (Z.of_nat k) l errors = errors.
Proof.
  intros Hnd. revert k errors.
  induction l as [|m l IH]; intros k errors Hl; [done|].
  simpl. destruct (Hl 0%nat m eq_refl) as (Harr & f & Hf & Hag).
  rewrite Nat.add_0_r in Hf.
  rewrite (compare_var_agree mh fh errors k m f Hnd Hf Hag Harr).
  replace (Z.of_nat k + 1) with (Z.of_nat (S k)) by lia.
  apply IH. intros j m' Hj. destruct (Hl (S j) m' Hj) as (Ha & f' & Hf' & Hag').
  split; [done|]. exists f'. split; [|done].
  by replace (S k + j)%nat with (k + S j)%nat by lia.
Qed.



(** In an ordered table, a metadata variable found at another place than
    its own adds the one diagnostic of its displacement. *)
Lemma compare_var_displaced (mh fh : Header) (errors : string) (k p : nat)
    (m f : Var) :
  header_type fh = "scheme" →
  NoDup (lnames (variable_list fh)) →
  variable_list fh !! p = Some f →
  lower (local_name m) = lower (local_name f) →
  (k < length (variable_list fh))%nat →
  p ≠ k →
  compare_var conv mh fh errors (Z.of_nat k) m =
  add_error errors (out_of_order (local_name m) (title mh)).
Proof.
  intros Hty Hnd Hp Hn Hk Hpk. unfold compare_var.
  rewrite (find_var_in_list_lookup _ _ p f Hnd Hp Hn), Hty.
  destruct (Z.geb_spec (Z.of_nat k) (Z.of_nat (length (variable_list fh))));
    [lia|].
  destruct (Z.eqb_spec (Z.of_nat p) (Z.of_nat k)); [lia|]. done.
Qed.

End AgreeFacts.

Lemma lookup_five {A} (l1 l2 l3 : list A) (x y : A) :
  let l := l1 ++ x :: l2 ++ y :: l3 in
  (∀ j m, l1 !! j = Some m → l !! j = Some m) ∧
  l !! length l1 = Some x ∧
  (∀ j m, l2 !! j = Some m → l !! (S (length l1) + j)%nat = Some m) ∧
  l !! (S (length l1) + length l2)%nat = Some y ∧
  (∀ j m, l3 !! j = Some m →
     l !! (S (S (length l1) + length l2) + j)%nat = Some m).
Proof.
  induction l1 as [|h l1 IH]; simpl.
  - split; [by intros j m; rewrite lookup_nil|]. split; [done|].
    induction l2 as [|h2 l2 IH2]; simpl.
    + split; [by intros j m; rewrite lookup_nil|]. done.
    + destruct IH2 as (I1 & I2 & I3).
      split; [|split]; [|done|done]. intros [|j] m; simpl; [done|apply I1].
  - destruct IH as (I1 & I2 & I3 & I4 & I5).
    split; [|done]. intros [|j] m; simpl; [done|apply I1].
Qed.

Lemma filter_all {A} (P : A → bool) (l : list A) :
  Forall (λ x, P x = true) l → List.filter P l = l.
Proof.
  induction 1 as [|x l Hx _ IH]; simpl; [done|]. by rewrite Hx, IH.
Qed.

Lemma arity_errors_extra (ttl fht : string) (mlist flist : list Var) :
  str_in fht _EXTRA_VARIABLE_TABLE_TYPES = true →
  (length mlist ≤ length flist)%nat →
  arity_errors ttl fht (count_mlen mlist) (Z.of_nat (length flist)) = "".
Proof.
  intros Hextra Hlen. unfold arity_errors, missing_from.
  rewrite count_mlen_filter, Hextra.
  pose proof (List.filter_length_le
                (λ v, negb (is_arrayspec (local_name v))) mlist) as Hle.
  set (n := length (List.filter _ mlist)) in *.
  destruct (Z.eqb_spec (Z.of_nat n) (Z.of_nat (length flist))); [done|].
  simpl negb. cbv iota.
  destruct (Z.gtb_spec (Z.of_nat (length flist)) (Z.of_nat n)); [done|lia].
Qed.

Lemma extra_not_ordered (fht : string) :
  fht = "module" ∨ fht = "host" ∨ fht = "ddt" →
  str_in fht _EXTRA_VARIABLE_TABLE_TYPES = true ∧
  str_in fht _ORDERED_TABLE_TYPES = false.
Proof. by intros [-> | [-> | ->]]. Qed.

Section WholeHeaders.

Variable conv : Header → Var → list string.

(** With as many Fortran variables as metadata variables, none of these an
    array reference, the length check is passed. *)
Lemma arity_errors_same_length (ttl fht : string) (mlist flist : list Var) :
  length mlist = length flist →
  Forall (λ m, is_arrayspec (local_name m) = false) mlist →
  arity_errors ttl fht (count_mlen mlist) (Z.of_nat (length flist)) = "".
Proof.
  intros Hlen Harr. unfold arity_errors, missing_from.
  rewrite count_mlen_filter, filter_all, Hlen, Z.eqb_refl; [done|].
  eapply Forall_impl; [exact Harr|]. by intros x ->.
Qed.

Lemma agree_at (mh : Header) (src flist : list Var) (i : nat) (m : Var) :
  Forall2 (var_identical conv mh) src flist → src !! i = Some m →
  ∃ f, flist !! i = Some f ∧ var_agree conv mh m f.
Proof.
  intros HF Hi. destruct (Forall2_lookup_l _ _ _ _ _ HF Hi) as (f & Hf & Hid).
  exists f. split; [done|]. by apply var_identical_agree.
Qed.


(** C4 (as amended): for two scheme headers where the metadata lists the
    variables [a] and [b] at each other's place and every variable is
    otherwise identical to the Fortran variable of its place (distinct
    names, no array reference), the comparison returns two diagnostics and
    no other: [a] out of order, then [b] out of order.  The scan goes on
    after each of them, and the order is left as it is. *)
Theorem compare_swapped (mh fh : Header) (l1 l2 l3 : list Var) (a b : Var) :
  header_type mh = "scheme" → header_type fh = "scheme" →
  variable_list mh = l1 ++ a :: l2 ++ b :: l3 →
  Forall2 (var_identical conv mh) (l1 ++ b :: l2 ++ a :: l3) (variable_list fh) →
  NoDup (lnames (variable_list fh)) →
  Forall (λ m, is_arrayspec (local_name m) = false) (variable_list mh) →
  compare_fheader_to_mheader conv mh fh =
  Ok (out_of_order (local_name a) (title mh) +:+ nl +:+
      out_of_order (local_name b) (title mh)).
Proof.
  intros Hm Hf Hml HF Hnd Harr. unfold compare_fheader_to_mheader.
  rewrite Hm, Hf. simpl negb. cbv iota. f_equal.
  assert (Hlen : length (variable_list mh) = length (variable_list fh)).
  { rewrite <- (Forall2_length _ _ _ HF), Hml.
    rewrite !length_app; simpl; rewrite !length_app; simpl. lia. }
  rewrite arity_errors_same_length by done.
  rewrite Hml in Harr |- *.
  apply Forall_app in Harr as [Ha1 Harr].
  apply Forall_cons in Harr as [Haa Harr].
  apply Forall_app in Harr as [Ha2 Harr].
  apply Forall_cons in Harr as [Hab Ha3].
  destruct (lookup_five l1 l2 l3 b a) as (S1 & Sb & S2 & Sa & S3).
  destruct (agree_at mh _ _ _ _ HF Sb) as (fb & Hfb & Hagb).
  destruct (agree_at mh _ _ _ _ HF Sa) as (fa & Hfa & Haga).
  set (n1 := length l1) in *. set (n2 := length l2) in *.
  (* the variables before [a] *)
  rewrite compare_vars_app, Z.add_0_l. fold n1.
  rewrite (compare_vars_agree conv mh fh l1 0%nat _ Hnd) by
    (intros j m Hj; split;
     [by eapply (Forall_lookup_1 _ _ _ _ Ha1) | by eapply agree_at, S1]).
  (* [a], at the place of [b] *)
  simpl compare_vars.
  assert (Hk1 : (n1 < length (variable_list fh))%nat)
    by (by eapply lookup_lt_Some).
  assert (Hk2 : (S n1 + n2 < length (variable_list fh))%nat)
    by (by eapply lookup_lt_Some).
  rewrite (compare_var_displaced conv mh fh "" n1 (S n1 + n2) a fa
             Hf Hnd Hfa (proj1 Haga) Hk1) by lia.
  rewrite add_error_empty.
  (* the variables between the two *)
  replace (Z.of_nat n1 + 1) with (Z.of_nat (S n1)) by lia.
  rewrite compare_vars_app. fold n2.
  rewrite (compare_vars_agree conv mh fh l2 (S n1) _ Hnd) by
    (intros j m Hj; split;
     [by eapply (Forall_lookup_1 _ _ _ _ Ha2) | by eapply agree_at, S2]).
  (* [b], at the place of [a] *)
  simpl compare_vars.
  replace (Z.of_nat (S n1) + Z.of_nat n2) with (Z.of_nat (S n1 + n2)) by lia.
  rewrite (compare_var_displaced conv mh fh _ (S n1 + n2) n1 b fb
             Hf Hnd Hfb (proj1 Hagb) Hk2) by lia.
  (* the variables after [b] *)
  replace (Z.of_nat (S n1 + n2) + 1) with (Z.of_nat (S (S n1 + n2))) by lia.
  rewrite (compare_vars_agree conv mh fh l3 (S (S n1 + n2)) _ Hnd) by
    (intros j m Hj; split;
     [by eapply (Forall_lookup_1 _ _ _ _ Ha3) | by eapply agree_at, S3]).
  unfold add_error, out_of_order. simpl nonempty. cbv iota.
  by rewrite app_assoc_s.
Qed.

End WholeHeaders.

Ltac identical_lists := repeat constructor.



Lemma compare_swapped_witness :
  compare_fheader_to_mheader dims_as_declared swapped_meta swapped_fort =
  Ok ("Out of order argument, x in foo_run" +:+ nl +:+
      "Out of order argument, v in foo_run").
Proof.
  apply (compare_swapped dims_as_declared swapped_meta swapped_fort
           [real_var "u" ["ncol"]] [real_var "w" []] []
           (real_var "x" ["ncol"; "lev"]) (real_var "v" ["ncol"])).
  - reflexivity.
  - reflexivity.
  - reflexivity.
  - identical_lists.
  - compute_done.
  - identical_lists.
Defined.

(** C4 (as the claim states it) fails: with the two arguments of a scheme
    listed in the other order by the metadata, the comparison gives two
    diagnostics of an argument out of order, one for each. *)
Lemma compare_swapped_counterexample :
  compare_fheader_to_mheader dims_as_declared two_args_meta two_args_fort =
  Ok ("Out of order argument, b in foo_run" +:+ nl +:+
      "Out of order argument, a in foo_run") ∧
  count_diagnostics "Out of order argument"
    ("Out of order argument, b in foo_run" +:+ nl +:+
     "Out of order argument, a in foo_run") = 2%nat.
Proof. split; reflexivity. Qed.

(** ** The pairing of the headers of one file *)

Lemma pop_title_None (t : string) (fs : list Header) :
  pop_title t fs = None ↔ titled t fs = 0%nat.
Proof.
  unfold titled. induction fs as [|f fs IH]; simpl; [done|].
  rewrite filter_cons.
  destruct (String.eqb_spec (title f) t) as [Heq|Hne].
  - rewrite decide_True by done. done.
  - rewrite decide_False by done. rewrite <- IH.
    destruct (pop_title t fs) as [[? ?]|]; done.
Qed.

(** The header popped has the title, and it is taken out once. *)
Lemma pop_title_Some (t : string) (fs : list Header) (f : Header)
    (rest : list Header) :
  pop_title t fs = Some (f, rest) → title f = t ∧ fs ≡ₚ f :: rest.
Proof.
  revert rest. induction fs as [|h fs IH]; intros rest; simpl; [done|].
  destruct (String.eqb_spec (title h) t) as [Heq|Hne].
  - intros H. injection H as H1 H2. by subst.
  - destruct (pop_title t fs) as [[f' rest']|]; simpl; [|done].
    intros H. injection H as H1 H2. subst f' rest.
    destruct (IH rest' eq_refl) as [Ht Hp].
    split; [done|]. rewrite Hp. apply Permutation_swap.
Qed.

Lemma titled_cons (t : string) (h : Header) (hs : list Header) :
  titled t (h :: hs) =
  ((if decide (title h = t) then 1 else 0) + titled t hs)%nat.
Proof. unfold titled. rewrite filter_cons. by destruct (decide _). Qed.

Lemma titled_perm (t : string) (l1 l2 : list Header) :
  l1 ≡ₚ l2 → titled t l1 = titled t l2.
Proof. intros H. unfold titled. by rewrite H. Qed.

Lemma titled_zero (t : string) (hs : list Header) :
  titled t hs = 0%nat ↔ t ∉ title <$> hs.
Proof.
  induction hs as [|h hs IH]; simpl.
  - split; [intros _; apply not_elem_of_nil | done].
  - rewrite titled_cons, not_elem_of_cons, <- IH.
    destruct (decide (title h = t)) as [Heq|Hne].
    + split; [lia|]. intros [Hne _]. by destruct Hne.
    + simpl. split; [intros H; split; [congruence|exact H] | by intros [_ H]].
Qed.

(** What a successful pairing returns: one entry for every metadata header,
    in their order, each with a Fortran header of its title, and the
    Fortran headers are the paired ones together with those left over. *)
Lemma pair_headers_Ok (ms fs : list Header) (ff : string)
    (d0 d : list (Header * Header)) (pool : list Header) :
  pair_headers ms fs ff d0 = Ok (d, pool) →
  ∃ d', d = d0 ++ d' ∧ d'.*1 = ms ∧
        Forall (λ p, title p.1 = title p.2) d' ∧ fs ≡ₚ d'.*2 ++ pool.
Proof.
  revert fs d0. induction ms as [|m ms IH]; intros fs d0; simpl.
  - intros [= <- <-]. exists []. by rewrite app_nil_r.
  - destruct (pop_title (title m) fs) as [[f fs']|] eqn:Hpop; [|done].
    intros H. destruct (IH _ _ H) as (d' & -> & H1 & H2 & H3).
    apply pop_title_Some in Hpop as [Ht Hp].
    exists ((m, f) :: d').
    split; [by rewrite <- app_assoc|]. split; [by rewrite fmap_cons, H1|].
    split; [by constructor|]. by rewrite fmap_cons, Hp, H3.
Qed.

(** The search fails exactly at a metadata header for which no Fortran
    header of its title is left: there are no more of them than metadata
    headers of that title before it. *)
Lemma pair_headers_fails (ms fs : list Header) (ff : string)
    (d0 : list (Header * Header)) :
  raises (pair_headers ms fs ff d0) ↔
  ∃ pre m post, ms = pre ++ m :: post ∧
                (titled (title m) fs ≤ titled (title m) pre)%nat.
Proof.
  revert fs d0. induction ms as [|m ms IH]; intros fs d0; simpl.
  - split; [done|]. intros (pre & m & post & H & _). by destruct pre.
  - destruct (pop_title (title m) fs) as [[f fs']|] eqn:Hpop.
    + apply pop_title_Some in Hpop as [Ht Hp]. rewrite IH.
      assert (Hcount : ∀ t pre,
        (titled t fs ≤ titled t (m :: pre) ↔ titled t fs' ≤ titled t pre)%nat).
      { intros t pre. rewrite (titled_perm t _ _ Hp), !titled_cons, Ht. lia. }
      split.
      * intros (pre & m' & post & -> & Hle).
        exists (m :: pre), m', post. split; [done|]. by apply Hcount.
      * intros (pre & m' & post & Heq & Hle). destruct pre as [|p pre].
        -- simpl in Heq. injection Heq as <- <-. exfalso.
           rewrite (titled_perm _ _ _ Hp), titled_cons, Ht in Hle.
           rewrite decide_True in Hle by done. unfold titled in Hle.
           simpl in Hle. lia.
        -- simpl in Heq. injection Heq as <- ->.
           exists pre, m', post. split; [done|]. by apply Hcount.
    + simpl. split; [intros _|done].
      exists [], m, ms. split; [done|].
      apply pop_title_None in Hpop. rewrite Hpop. lia.
Qed.

(** ** The Fortran headers left over *)

Lemma nonempty_app_r (a b : string) : nonempty b = true → nonempty (a +:+ b) = true.
Proof. destruct a; [done|]. by destruct b. Qed.

Lemma has_plain_app (a b : string) :
  has_plain (a +:+ b) = has_plain a || has_plain b.
Proof.
  induction a as [|c a IH]; [done|].
  change (String c a +:+ b) with (String c (a +:+ b)). simpl.
  by rewrite IH, orb_assoc.
Qed.

(** A format string with a character that is not a brace never formats to
    the empty text. *)
Lemma py_format_nonempty (n : nat) :
  ∀ (s : string) (args : list string) (out : string),
    (String.length s ≤ n)%nat → py_format s args = Some out →
    has_plain s = true → nonempty out = true.
Proof.
  induction n as [|n IH]; intros s args out Hlen Hfmt Hplain.
  - destruct s; simpl in Hplain, Hlen; [done|lia].
  - destruct s as [|c r]; [done|]. simpl in Hfmt, Hplain, Hlen.
    destruct (Ascii.eqb c "{").
    + destruct r as [|c' r']; [done|]. simpl in Hplain, Hlen.
      destruct (Ascii.eqb c' "{").
      * destruct (py_format r' args); [|done]. by injection Hfmt as <-.
      * destruct (Ascii.eqb c' "}"); [|done].
        destruct args as [|a args']; [done|].
        destruct (py_format r' args') as [out'|] eqn:Hrec; [|done].
        injection Hfmt as <-. apply nonempty_app_r.
        apply (IH r' args' out'); [lia|done|done].
    + destruct (Ascii.eqb c "}").
      * destruct r as [|c' r']; [done|].
        destruct (Ascii.eqb c' "}"); [|done].
        destruct (py_format r' args); [|done]. by injection Hfmt as <-.
      * destruct (py_format r args); [|done]. by injection Hfmt as <-.
Qed.

Lemma unmatched_errmsg_none (fs : list Header) (mf e sep : string) :
  existsb has_variables fs = false → unmatched_errmsg fs mf e sep = Ok e.
Proof.
  revert e sep. induction fs as [|f fs IH]; intros e sep; simpl; [done|].
  destruct (has_variables f); [done|]. apply IH.
Qed.

Lemma unmatched_errmsg_not_CCPPError (fs : list Header) (mf e sep msg : string) :
  unmatched_errmsg fs mf e sep ≠ CCPPError msg.
Proof.
  revert e sep. induction fs as [|f fs IH]; intros e sep; simpl; [done|].
  destruct (has_variables f); [|apply IH].
  destruct (py_format _ _); [apply IH|done].
Qed.

Lemma unmatched_errmsg_keeps (fs : list Header) (mf e sep e' : string) :
  nonempty e = true → unmatched_errmsg fs mf e sep = Ok e' →
  nonempty e' = true.
Proof.
  revert e sep. induction fs as [|f fs IH]; intros e sep He; simpl.
  - by intros [= <-].
  - destruct (has_variables f); [|by apply IH].
    destruct (py_format _ _) as [e1|] eqn:Hfmt; [|done].
    apply IH. eapply py_format_nonempty; [done|exact Hfmt|].
    by rewrite !has_plain_app, !orb_true_r.
Qed.

Lemma unmatched_errmsg_some (fs : list Header) (mf e sep e' : string) :
  existsb has_variables fs = true → unmatched_errmsg fs mf e sep = Ok e' →
  nonempty e' = true.
Proof.
  revert e sep. induction fs as [|f fs IH]; intros e sep; simpl; [done|].
  destruct (has_variables f); simpl; [intros _|by apply IH].
  destruct (py_format _ _) as [e1|] eqn:Hfmt; [|done].
  apply unmatched_errmsg_keeps. eapply py_format_nonempty; [done|exact Hfmt|].
  by rewrite !has_plain_app, !orb_true_r.
Qed.

(** The check of the headers left over raises exactly when one of them has
    variables. *)
Lemma check_unmatched_raises (pool : list Header) (mf : string) :
  raises (check_unmatched pool mf) ↔
  ∃ f, f ∈ pool ∧ has_variables f = true.
Proof.
  transitivity (existsb has_variables pool = true).
  - unfold check_unmatched. destruct pool as [|f pool]; [done|].
    destruct (existsb has_variables (f :: pool)) eqn:Hex.
    + split; [done|intros _].
      destruct (unmatched_errmsg (f :: pool) mf "" "") as [e'| |] eqn:Hmsg;
        [|done..].
      simpl. by rewrite (unmatched_errmsg_some _ _ _ _ _ Hex Hmsg).
    + by rewrite unmatched_errmsg_none.
  - rewrite existsb_exists. by setoid_rewrite list_elem_of_In.
Qed.

Lemma check_unmatched_Ok (pool : list Header) (mf : string) :
  check_unmatched pool mf = Ok () ↔
  Forall (λ f, has_variables f = false) pool.
Proof.
  rewrite Forall_forall. split.
  - intros Hok f Hin. destruct (has_variables f) eqn:Hv; [|done].
    assert (Hr : raises (check_unmatched pool mf))
      by (apply check_unmatched_raises; eauto).
    by rewrite Hok in Hr.
  - intros Hall. destruct (check_unmatched pool mf) as [[]| |] eqn:Hc; [done|..].
    all: assert (Hr : raises (check_unmatched pool mf)) by (by rewrite Hc).
    all: apply check_unmatched_raises in Hr as (f & Hin & Hv).
    all: by rewrite (Hall f Hin) in Hv.
Qed.

(** *** Names without braces *)

Lemma no_brace_cons (c : ascii) (s : string) :
  no_brace (String c s) =
  negb (Ascii.eqb c "{") && negb (Ascii.eqb c "}") && no_brace s.
Proof.
  unfold no_brace. simpl.
  by destruct (Ascii.eqb c "{"), (Ascii.eqb c "}"), (contains "{" s),
    (contains "}" s).
Qed.

Lemma no_brace_app (a b : string) :
  no_brace (a +:+ b) = no_brace a && no_brace b.
Proof.
  induction a as [|c a IH]; [done|].
  change (String c a +:+ b) with (String c (a +:+ b)).
  by rewrite !no_brace_cons, IH, andb_assoc.
Qed.

(** A text without braces at the start of a format string is copied. *)
Lemma py_format_no_brace_app (a s : string) (args : list string) :
  no_brace a = true →
  py_format (a +:+ s) args = String.append a <$> py_format s args.
Proof.
  induction a as [|c a IH]; intros Ha.
  - change ("" +:+ s) with s. destruct (py_format s args); reflexivity.
  - rewrite no_brace_cons in Ha.
    apply andb_true_iff in Ha as [Hc Ha]. apply andb_true_iff in Hc as [H1 H2].
    apply negb_true_iff in H1, H2.
    change (String c a +:+ s) with (String c (a +:+ s)). simpl.
    rewrite H1, H2, (IH Ha). by destruct (py_format s args).
Qed.

(** With no brace in the titles and in the file name, the message of the
    headers left over is built without an error of [format]. *)
Lemma unmatched_errmsg_no_brace (fs : list Header) (mf e sep : string) :
  no_brace mf = true → Forall (λ f, no_brace (title f) = true) fs →
  no_brace e = true → no_brace sep = true →
  ∃ e', unmatched_errmsg fs mf e sep = Ok e' ∧ no_brace e' = true.
Proof.
  intros Hmf Hfs. revert e sep.
  induction Hfs as [|f fs Hf _ IH]; intros e sep He Hsep; simpl; [eauto|].
  destruct (has_variables f); [|by apply IH].
  rewrite py_format_no_brace_app by done.
  rewrite py_format_no_brace_app by done. simpl.
  apply IH; [|done].
  repeat first [rewrite no_brace_app | rewrite no_brace_cons].
  rewrite He, Hsep, Hf, Hmf. reflexivity.
Qed.

Lemma check_unmatched_no_brace (pool : list Header) (mf : string) :
  no_brace mf = true → Forall (λ f, no_brace (title f) = true) pool →
  check_unmatched pool mf ≠ FormatError.
Proof.
  intros Hmf Hfs. unfold check_unmatched. destruct pool as [|f pool]; [done|].
  destruct (unmatched_errmsg_no_brace (f :: pool) mf "" "" Hmf Hfs)
    as (e' & -> & _); [done..|].
  simpl. by destruct (nonempty e').
Qed.

Lemma pair_headers_not_FormatError (ms fs : list Header) (ff : string)
    (d0 : list (Header * Header)) :
  pair_headers ms fs ff d0 ≠ FormatError.
Proof.
  revert fs d0. induction ms as [|m ms IH]; intros fs d0; simpl; [done|].
  destruct (pop_title (title m) fs) as [[f fs']|]; [apply IH|done].
Qed.

(** The pairing of the headers of one file raises exactly when some
    metadata header finds no Fortran header of its title left (none of that
    title that an earlier metadata header has not taken; with distinct
    metadata titles: none of that title at all), or when, every metadata
    header paired, a Fortran header left over has variables.  A successful
    pairing has one entry for every metadata header, in their order, with a
    Fortran header of the same title, and the Fortran headers are the paired
    ones together with the ones left over: none is paired twice.  What is
    raised is a [CCPPError] when the metadata file name and the Fortran
    titles have no brace in them. *)
Theorem pairing_fails_exactly_when (ms fs : list Header) (mf ff : string) :
  (raises (pair_all ms fs mf ff) ↔
     (∃ pre m post, ms = pre ++ m :: post ∧
                    (titled (title m) fs ≤ titled (title m) pre)%nat) ∨
     (∃ d pool, pair_headers ms fs ff [] = Ok (d, pool) ∧
                ∃ f, f ∈ pool ∧ has_variables f = true)) ∧
  (NoDup (title <$> ms) →
     (∃ pre m post, ms = pre ++ m :: post ∧
                    (titled (title m) fs ≤ titled (title m) pre)%nat) ↔
     (∃ m, m ∈ ms ∧ title m ∉ title <$> fs)) ∧
  (∀ d, pair_all ms fs mf ff = Ok d →
     d.*1 = ms ∧ Forall (λ p, title p.1 = title p.2) d ∧
     ∃ pool, fs ≡ₚ d.*2 ++ pool ∧
             Forall (λ f, has_variables f = false) pool) ∧
  (no_brace mf = true → Forall (λ f, no_brace (title f) = true) fs →
   raises (pair_all ms fs mf ff) → ∃ msg, pair_all ms fs mf ff = CCPPError msg).
Proof.
  split; [|split; [|split]].
  - unfold pair_all. rewrite <- pair_headers_fails with (ff := ff) (d0 := []).
    destruct (pair_headers ms fs ff []) as [[d pool]|msg|] eqn:Hp; simpl.
    + split.
      * intros Hr. right. exists d, pool. split; [done|].
        apply (check_unmatched_raises pool mf).
        by destruct (check_unmatched pool mf) as [[]| |].
      * intros [[]|(d' & pool' & Heq & Hex)]. injection Heq as <- <-.
        apply (check_unmatched_raises pool mf) in Hex.
        by destruct (check_unmatched pool mf) as [[]| |].
    + split; [by left|done].
    + split; [by left|done].
  - intros Hnd. split.
    + intros (pre & m & post & -> & Hle). exists m.
      split; [apply elem_of_app; right; apply list_elem_of_here|].
      apply titled_zero.
      rewrite fmap_app, fmap_cons in Hnd.
      apply NoDup_app in Hnd as (_ & Hnot & _).
      assert (Hpre : titled (title m) pre = 0%nat).
      { apply titled_zero. intros Hin. apply (Hnot _ Hin), list_elem_of_here. }
      lia.
    + intros (m & Hin & Hnot).
      apply list_elem_of_split in Hin as (pre & post & ->).
      exists pre, m, post. split; [done|].
      apply titled_zero in Hnot. lia.
  - unfold pair_all. intros d.
    destruct (pair_headers ms fs ff []) as [[d' pool]|msg|] eqn:Hp; simpl;
      [|done..].
    destruct (check_unmatched pool mf) as [[]| |] eqn:Hc; simpl; [|done..].
    intros [= <-].
    destruct (pair_headers_Ok _ _ _ _ _ _ Hp) as (d'' & -> & H1 & H2 & H3).
    simpl. split; [done|]. split; [done|]. exists pool.
    split; [done|]. by apply (check_unmatched_Ok pool mf).
  - intros Hmf Hfs. unfold pair_all.
    destruct (pair_headers ms fs ff []) as [[d pool]|msg|] eqn:Hp; simpl.
    + destruct (pair_headers_Ok _ _ _ _ _ _ Hp) as (d' & _ & _ & _ & Hperm).
      rewrite Hperm in Hfs. apply Forall_app in Hfs as [_ Hpool].
      pose proof (check_unmatched_no_brace pool mf Hmf Hpool) as Hne.
      destruct (check_unmatched pool mf) as [[]|msg|]; simpl; [done|eauto|done].
    + eauto.
    + by destruct (pair_headers_not_FormatError ms fs ff []).
Qed.

Lemma pairing_fails_exactly_when_witness :
  pair_all foo_meta_headers foo_fort_headers "foo.meta" "foo.F90" =
    Ok (zip foo_meta_headers foo_meta_headers) ∧
  (zip foo_meta_headers foo_meta_headers).*1 = foo_meta_headers.
Proof.
  split; [reflexivity|].
  apply (pairing_fails_exactly_when foo_meta_headers foo_fort_headers
           "foo.meta" "foo.F90").
  reflexivity.
Defined.

(** C8: the claim holds of the pairing but for the error that is raised.
    With a brace in the name of the metadata file and two Fortran headers
    with variables left over, the message built for the first is formatted
    again for the second, and the file name in it is read as a replacement
    field: the pairing ends in the exception of [str.format], not in the
    [CCPPError] of an unmatched header, which the same headers get under a
    file name without a brace. *)
Theorem pairing_brace_in_file_name :
  pair_all run_only three_routines "foo{}.meta" "foo{}.F90" = FormatError ∧
  check_fortran_against_metadata dims_as_declared run_only three_routines
    "foo{}.meta" "foo{}.F90" = FormatError ∧
  pair_all run_only three_routines "foo.meta" "foo.F90" =
    CCPPError ("No matching metadata header found for foo_init in foo.meta"
               +:+ nl +:+
               "No matching metadata header found for foo_finalize in foo.meta").
Proof. repeat split. Qed.

(** ** The diagnostics of one file *)

Lemma split_not_nil (c : ascii) (s : string) : split c s ≠ [].
Proof.
  induction s as [|a r IH]; simpl; [done|].
  destruct (Ascii.eqb a c); [done|]. by destruct (split c r).
Qed.

(** One more line than newlines: the count of [check_fortran_against_metadata]
    is the number of lines of the text. *)
Lemma num_errors_lines (errors : string) :
  num_errors errors = Z.of_nat (length (lines errors)).
Proof.
  unfold num_errors, lines. induction errors as [|a r IH]; simpl; [done|].
  destruct (Ascii.eqb a (ascii_of_nat 10)).
  - simpl length. lia.
  - pose proof (split_not_nil (ascii_of_nat 10) r) as Hne.
    destruct (split (ascii_of_nat 10) r); [done|]. simpl in *. lia.
Qed.

Lemma nonempty_app (a b : string) :
  nonempty (a +:+ b) = nonempty a || nonempty b.
Proof. by destruct a. Qed.

Lemma concat_all_nonempty (ds : list string) :
  nonempty (concat_all ds) = true ↔ Exists (λ diag, diag ≠ "") ds.
Proof.
  induction ds as [|x ds IH]; simpl.
  - split; [done|]. by intros H%Exists_nil.
  - rewrite nonempty_app, orb_true_iff, Exists_cons, IH, nonempty_true. done.
Qed.

Section CheckFacts.

Variable conv : Header → Var → list string.

(** When every comparison returns, the loop returns the diagnostics put one
    after the other. *)
Lemma compare_headers_Ok (d : list (Header * Header)) (ds : list string)
    (errors : string) :
  Forall2 (λ p diag, compare_fheader_to_mheader conv p.1 p.2 = Ok diag) d ds →
  compare_headers conv d errors = Ok (errors +:+ concat_all ds).
Proof.
  intros HF. revert errors.
  induction HF as [|[m f] diag d ds Hc _ IH]; intros errors; simpl.
  - by rewrite app_nil_r_s.
  - simpl in Hc. rewrite Hc. simpl. by rewrite IH, app_assoc_s.
Qed.

(** C9: when the headers of a file are paired and every comparison returns
    its diagnostic, [check_fortran_against_metadata] raises nothing if all
    the diagnostics are empty, and otherwise raises one error whose message
    is the diagnostics of all the pairs one after the other, then the number
    of lines of that text, then the two file names. *)
Theorem batch_validation (ms fs : list Header) (mf ff : string)
    (d : list (Header * Header)) (ds : list string) :
  pair_all ms fs mf ff = Ok d →
  Forall2 (λ p diag, compare_fheader_to_mheader conv p.1 p.2 = Ok diag) d ds →
  let errors := concat_all ds in
  let n := length (lines errors) in
  check_fortran_against_metadata conv ms fs mf ff =
    (if nonempty errors then
       CCPPError (errors +:+ nl +:+ str_of_Z (Z.of_nat n) +:+ " error" +:+
                  (if (1 <? n)%nat then "s" else "") +:+ " found comparing " +:+
                  mf +:+ " to " +:+ ff)
     else Ok ()) ∧
  (nonempty errors = true ↔ Exists (λ diag, diag ≠ "") ds).
Proof.
  intros Hpair HF errors n. split; [|apply concat_all_nonempty].
  unfold check_fortran_against_metadata. rewrite Hpair. simpl.
  rewrite (compare_headers_Ok d ds "" HF). simpl.
  change ("" +:+ concat_all ds) with errors.
  destruct (nonempty errors); [|done].
  unfold consistency_message. rewrite num_errors_lines. fold n.
  replace (Z.of_nat n >? 1) with (1 <? n)%nat; [done|].
  destruct (Nat.ltb_spec 1 n), (Z.gtb_spec (Z.of_nat n) 1); (done || lia).
Qed.

End CheckFacts.

Lemma batch_validation_witness :
  check_fortran_against_metadata dims_as_declared
    [scenario_c_meta] [scenario_c_fort] "foo.meta" "foo.F90" =
  CCPPError
    ("Variable mismatch in foo_run, variables missing from metadata header."
     +:+ nl +:+ "1 error found comparing foo.meta to foo.F90").
Proof.
  apply (batch_validation dims_as_declared [scenario_c_meta] [scenario_c_fort]
           "foo.meta" "foo.F90" [(scenario_c_meta, scenario_c_fort)]
           ["Variable mismatch in foo_run, variables missing from metadata header."]).
  - reflexivity.
  - repeat constructor.
Defined.

(** The diagnostics of two pairs are put together without a separator, so
    the count is taken on the joined text. *)
Example batch_two_pairs :
  check_fortran_against_metadata dims_as_declared
    [scenario_c_meta; header_of "bar_run" "scheme" [real_var "a" []]]
    [scenario_c_fort; header_of "bar_run" "scheme" []] "foo.meta" "foo.F90" =
  CCPPError
    ("Variable mismatch in foo_run, variables missing from metadata header." +:+
     "Variable mismatch in bar_run, variables missing from Fortran scheme."
     +:+ nl +:+ "No Fortran variable for a in bar_run"
     +:+ nl +:+ "2 errors found comparing foo.meta to foo.F90").
Proof. reflexivity. Qed.

(** ** The two collections of a run *)

Example demo_run_all :
  ∃ r, demo_run ["host.meta"; "host_mod.meta"] ["foo.meta"; "types.meta"] =
       ([("host.meta", []); ("host_mod.meta", ["state_type"]);
         ("foo.meta", []); ("types.meta", [])], Ok r).
Proof. eexists. reflexivity. Qed.

Section VisibleFacts.

Variable pmf : string → list string → result (list Header).

Lemma ddts_visible_nil : ddts_visible pmf [].
Proof. intros i j fi ki fj kj hs h _ Hi. by rewrite lookup_nil in Hi. Qed.

Lemma ddts_known_nil (known : list string) : ddts_known pmf known [].
Proof. intros i fi ki hs h Hi. by rewrite lookup_nil in Hi. Qed.

Lemma lookup_snoc_inv {A} (l : list A) (x y : A) (i : nat) :
  (l ++ [x]) !! i = Some y →
  (i < length l)%nat ∧ l !! i = Some y ∨ i = length l ∧ y = x.
Proof.
  intros Hi. destruct (decide (i < length l)%nat) as [Hlt|Hge].
  - left. by rewrite lookup_app_l in Hi.
  - right. assert (i = length l) as ->.
    { apply lookup_lt_Some in Hi. rewrite length_app in Hi. simpl in Hi. lia. }
    rewrite list_lookup_middle in Hi by done. by injection Hi as <-.
Qed.

(** A call made with what is known keeps the calls visible. *)
Lemma ddts_visible_snoc (known : list string) (calls : list parse_call)
    (f : string) :
  ddts_visible pmf calls → ddts_known pmf known calls →
  ddts_visible pmf (calls ++ [(f, known)]).
Proof.
  intros HA HB i j fi ki fj kj hs h Hij Hi Hj Hpi Hin Hddt.
  apply lookup_snoc_inv in Hj as [[Hlt Hj]|[-> Hj]].
  - rewrite lookup_app_l in Hi by lia.
    exact (HA _ _ _ _ _ _ _ _ Hij Hi Hj Hpi Hin Hddt).
  - injection Hj as <- <-. rewrite lookup_app_l in Hi by lia.
    exact (HB _ _ _ _ _ Hi Hpi Hin Hddt).
Qed.

(** After the call, the ddt titles of its headers once known, all is known. *)
Lemma ddts_known_snoc (known known' : list string) (calls : list parse_call)
    (f : string) (hs : list Header) :
  ddts_known pmf known calls →
  pmf f known = Ok hs →
  (∀ t, t ∈ known → t ∈ known') →
  (∀ h, h ∈ hs → header_type h = "ddt" → title h ∈ known') →
  ddts_known pmf known' (calls ++ [(f, known)]).
Proof.
  intros HB Hp Hsub Hnew i fi ki hs' h Hi Hpi Hin Hddt.
  apply lookup_snoc_inv in Hi as [[Hlt Hi]|[-> Hi]].
  - apply Hsub. exact (HB _ _ _ _ _ Hi Hpi Hin Hddt).
  - injection Hi as <- <-. rewrite Hp in Hpi. injection Hpi as <-.
    by apply Hnew.
Qed.

End VisibleFacts.

Section AggregateFacts.

Variable conv : Header → Var → list string.
Variable pmf : string → list string → result (list Header).
Variable pff : string → string → result (list Header).
Variable pe : string → bool.

(** *** Registering the headers of a host file *)

Lemma register_host_header_Ok (f : string) (st st' : host_state) (h : Header) :
  register_host_header f st h = Ok st' →
  host_meta_headers st !! title h = None ∧
  host_meta_headers st' = <[title h := h]> (host_meta_headers st) ∧
  (∀ t, t ∈ host_known_ddts st → t ∈ host_known_ddts st') ∧
  (header_type h = "ddt" → title h ∈ host_known_ddts st').
Proof.
  unfold register_host_header.
  destruct (host_meta_headers st !! title h) eqn:Hl; [done|].
  intros [= <-]. simpl. repeat split; try done.
  - intros t Ht. destruct (String.eqb _ _); [|done].
    apply elem_of_app. by left.
  - intros ->. simpl. apply elem_of_app. right. apply list_elem_of_here.
Qed.

Lemma register_host_headers_Ok (f : string) (hs : list Header)
    (st st' : host_state) :
  register_host_headers f hs st = Ok st' →
  (∀ t, t ∈ host_known_ddts st → t ∈ host_known_ddts st') ∧
  (∀ h, h ∈ hs → header_type h = "ddt" → title h ∈ host_known_ddts st').
Proof.
  revert st. induction hs as [|h hs IH]; intros st; simpl.
  - intros [= <-]. split; [done|]. by intros h ?%elem_of_nil.
  - destruct (register_host_header f st h) as [st1| |] eqn:H1; simpl; [|done..].
    intros H2. apply register_host_header_Ok in H1 as (_ & _ & Hk & Hd).
    destruct (IH _ H2) as (Hk' & Hd').
    split; [by intros t Ht; apply Hk', Hk|].
    intros h' Hin Hddt. apply elem_of_cons in Hin as [->|Hin].
    + by apply Hk', Hd.
    + by apply Hd'.
Qed.

(** A host file is one more call of the parser, made with the types known
    before it, whether the file goes through or not. *)
Lemma host_file_calls (pd : string) (st : host_state) (f : string) :
  ∃ r, (∀ calls, host_file conv pmf pff pe pd st f calls =
                 (calls ++ [(f, host_known_ddts st)], r)) ∧
       ∀ st', r = Ok st' →
         ∃ hs, pmf f (host_known_ddts st) = Ok hs ∧
               (∀ t, t ∈ host_known_ddts st → t ∈ host_known_ddts st') ∧
               (∀ h, h ∈ hs → header_type h = "ddt" →
                     title h ∈ host_known_ddts st').
Proof.
  unfold host_file, call_parse_metadata_file, no_call, mbind, run_bind.
  destruct (pmf f (host_known_ddts st)) as [hs| |];
    (eexists; split; [intros calls; reflexivity|]); [|done..].
  intros st'. simpl.
  destruct (find_associated_fortran_file pe f) as [ff| |]; simpl; [|done..].
  destruct (pff ff pd) as [fhs| |]; simpl; [|done..].
  destruct (check_fortran_against_metadata conv hs fhs f ff) as [[]| |];
    simpl; [|done..].
  intros H. apply register_host_headers_Ok in H. by exists hs.
Qed.

(** The loop over the host files calls the parser for the files in their
    order, up to the one that raises; the first call is made with the
    types known at the start, and the calls stay visible. *)
Lemma host_files_loop_calls (pd : string) (files : list string)
    (st : host_state) :
  ∃ new r,
    (∀ calls, host_files_loop conv pmf pff pe pd files st calls =
              (calls ++ new, r)) ∧
    (∀ calls, ddts_visible pmf calls →
              ddts_known pmf (host_known_ddts st) calls →
              ddts_visible pmf (calls ++ new)) ∧
    new.*1 `prefix_of` files ∧
    (∀ c, head new = Some c → c.2 = host_known_ddts st) ∧
    (∀ st', r = Ok st' → new.*1 = files).
Proof.
  revert st. induction files as [|f files IH]; intros st.
  - exists [], (Ok st). split; [by intros calls; rewrite app_nil_r|].
    split; [by intros calls; rewrite app_nil_r|]. by repeat split.
  - destruct (host_file_calls pd st f) as (r1 & Hf & Hr1).
    assert (Hpre : [(f, host_known_ddts st)].*1 `prefix_of` f :: files)
      by (by exists files).
    destruct r1 as [st1|msg|].
    + destruct (Hr1 st1 eq_refl) as (hs & Hp & Hk & Hd).
      destruct (IH st1) as (new & r & Hloop & Hvis & Hn & _ & Hok).
      exists ((f, host_known_ddts st) :: new), r.
      split; [|split; [|split; [|split]]].
      * intros calls. simpl. unfold mbind, run_bind.
        by rewrite Hf, Hloop, <- app_assoc.
      * intros calls HA HB.
        replace (calls ++ (f, host_known_ddts st) :: new)
          with ((calls ++ [(f, host_known_ddts st)]) ++ new)
          by (by rewrite <- app_assoc).
        apply Hvis; [by apply ddts_visible_snoc|by eapply ddts_known_snoc].
      * rewrite fmap_cons. by apply prefix_cons.
      * by intros c [= <-].
      * intros st' Hst'. by rewrite fmap_cons, (Hok st' Hst').
    + exists [(f, host_known_ddts st)], (CCPPError msg).
      split; [|split; [|split; [|split]]]; try done.
      * intros calls. simpl. unfold mbind, run_bind. by rewrite Hf.
      * intros calls HA HB. by apply ddts_visible_snoc.
      * by intros c [= <-].
    + exists [(f, host_known_ddts st)], FormatError.
      split; [|split; [|split; [|split]]]; try done.
      * intros calls. simpl. unfold mbind, run_bind. by rewrite Hf.
      * intros calls HA HB. by apply ddts_visible_snoc.
      * by intros c [= <-].
Qed.

(** *** Registering the headers of a scheme file *)

Lemma register_scheme_header_Ok (f : string) (st st' : scheme_state)
    (h : Header) :
  register_scheme_header f st h = Ok st' →
  scheme_header_dict st !! title h = None ∧
  scheme_header_dict st' = <[title h := h]> (scheme_header_dict st) ∧
  scheme_meta_headers st' = scheme_meta_headers st ++ [h] ∧
  (∀ t, t ∈ scheme_known_ddts st → t ∈ scheme_known_ddts st') ∧
  (header_type h = "ddt" → title h ∈ scheme_known_ddts st').
Proof.
  unfold register_scheme_header.
  destruct (scheme_header_dict st !! title h) eqn:Hl; [done|].
  intros [= <-]. simpl. repeat split; try done.
  - intros t Ht. destruct (String.eqb _ _); [|done].
    apply elem_of_app. by left.
  - intros ->. simpl. apply elem_of_app. right. apply list_elem_of_here.
Qed.

Lemma register_scheme_headers_Ok (f : string) (hs : list Header)
    (st st' : scheme_state) :
  register_scheme_headers f hs st = Ok st' →
  (∀ t, t ∈ scheme_known_ddts st → t ∈ scheme_known_ddts st') ∧
  (∀ h, h ∈ hs → header_type h = "ddt" → title h ∈ scheme_known_ddts st').
Proof.
  revert st. induction hs as [|h hs IH]; intros st; simpl.
  - intros [= <-]. split; [done|]. by intros h ?%elem_of_nil.
  - destruct (register_scheme_header f st h) as [st1| |] eqn:H1; simpl;
      [|done..].
    intros H2. apply register_scheme_header_Ok in H1 as (_ & _ & _ & Hk & Hd).
    destruct (IH _ H2) as (Hk' & Hd').
    split; [by intros t Ht; apply Hk', Hk|].
    intros h' Hin Hddt. apply elem_of_cons in Hin as [->|Hin].
    + by apply Hk', Hd.
    + by apply Hd'.
Qed.

Lemma scheme_file_calls (pd : string) (st : scheme_state) (f : string) :
  ∃ r, (∀ calls, scheme_file conv pmf pff pe pd st f calls =
                 (calls ++ [(f, scheme_known_ddts st)], r)) ∧
       ∀ st', r = Ok st' →
         ∃ hs, pmf f (scheme_known_ddts st) = Ok hs ∧
               (∀ t, t ∈ scheme_known_ddts st → t ∈ scheme_known_ddts st') ∧
               (∀ h, h ∈ hs → header_type h = "ddt" →
                     title h ∈ scheme_known_ddts st').
Proof.
  unfold scheme_file, call_parse_metadata_file, no_call, mbind, run_bind.
  destruct (pmf f (scheme_known_ddts st)) as [hs| |];
    (eexists; split; [intros calls; reflexivity|]); [|done..].
  intros st'. simpl.
  destruct (find_associated_fortran_file pe f) as [ff| |]; simpl; [|done..].
  destruct (pff ff pd) as [fhs| |]; simpl; [|done..].
  destruct (check_fortran_against_metadata conv hs fhs f ff) as [[]| |];
    simpl; [|done..].
  intros H. apply register_scheme_headers_Ok in H. by exists hs.
Qed.

Lemma scheme_files_loop_calls (pd : string) (files : list string)
    (st : scheme_state) :
  ∃ new r,
    (∀ calls, scheme_files_loop conv pmf pff pe pd files st calls =
              (calls ++ new, r)) ∧
    (∀ calls, ddts_visible pmf calls →
              ddts_known pmf (scheme_known_ddts st) calls →
              ddts_visible pmf (calls ++ new)) ∧
    new.*1 `prefix_of` files ∧
    (∀ c, head new = Some c → c.2 = scheme_known_ddts st) ∧
    (∀ st', r = Ok st' → new.*1 = files).
Proof.
  revert st. induction files as [|f files IH]; intros st.
  - exists [], (Ok st). split; [by intros calls; rewrite app_nil_r|].
    split; [by intros calls; rewrite app_nil_r|]. by repeat split.
  - destruct (scheme_file_calls pd st f) as (r1 & Hf & Hr1).
    assert (Hpre : [(f, scheme_known_ddts st)].*1 `prefix_of` f :: files)
      by (by exists files).
    destruct r1 as [st1|msg|].
    + destruct (Hr1 st1 eq_refl) as (hs & Hp & Hk & Hd).
      destruct (IH st1) as (new & r & Hloop & Hvis & Hn & _ & Hok).
      exists ((f, scheme_known_ddts st) :: new), r.
      split; [|split; [|split; [|split]]].
      * intros calls. simpl. unfold mbind, run_bind.
        by rewrite Hf, Hloop, <- app_assoc.
      * intros calls HA HB.
        replace (calls ++ (f, scheme_known_ddts st) :: new)
          with ((calls ++ [(f, scheme_known_ddts st)]) ++ new)
          by (by rewrite <- app_assoc).
        apply Hvis; [by apply ddts_visible_snoc|by eapply ddts_known_snoc].
      * rewrite fmap_cons. by apply prefix_cons.
      * by intros c [= <-].
      * intros st' Hst'. by rewrite fmap_cons, (Hok st' Hst').
    + exists [(f, scheme_known_ddts st)], (CCPPError msg).
      split; [|split; [|split; [|split]]]; try done.
      * intros calls. simpl. unfold mbind, run_bind. by rewrite Hf.
      * intros calls HA HB. by apply ddts_visible_snoc.
      * by intros c [= <-].
    + exists [(f, scheme_known_ddts st)], FormatError.
      split; [|split; [|split; [|split]]]; try done.
      * intros calls. simpl. unfold mbind, run_bind. by rewrite Hf.
      * intros calls HA HB. by apply ddts_visible_snoc.
      * by intros c [= <-].
Qed.

(** In every run the parser is called for the host files in their order
    and then, when these have all gone through, for the scheme files in
    their order.  Among the calls for the host files, and among the calls
    for the scheme files, the title of a ddt header of the file of an
    earlier call is in the known derived types passed to every later call.
    The first host file and the first scheme file are parsed with no known
    type. *)
Lemma capgen_parse_calls (host_files scheme_files : list string)
    (pd : string) :
  let out := capgen_parse conv pmf pff pe host_files scheme_files pd [] in
  let hcalls := host_calls host_files out.1 in
  let scalls := scheme_calls host_files out.1 in
  ddts_visible pmf hcalls ∧ ddts_visible pmf scalls ∧
  hcalls.*1 `prefix_of` host_files ∧ scalls.*1 `prefix_of` scheme_files ∧
  (∀ c, head hcalls = Some c → c.2 = []) ∧
  (∀ c, head scalls = Some c → c.2 = []) ∧
  (∀ v, out.2 = Ok v → hcalls.*1 = host_files ∧ scalls.*1 = scheme_files).
Proof.
  unfold capgen_parse, parse_host_model_files, parse_scheme_files,
    host_calls, scheme_calls, mbind, run_bind.
  destruct (host_files_loop_calls pd host_files
              {| host_meta_headers := ∅; host_known_ddts := [] |})
    as (hnew & hr & Hh & Hhv & Hhp & Hhd & Hhok).
  specialize (Hhv [] (ddts_visible_nil pmf) (ddts_known_nil pmf [])).
  rewrite Hh. simpl in *.
  destruct hr as [hst|msg|].
  - destruct (scheme_files_loop_calls pd scheme_files
                {| scheme_meta_headers := []; scheme_header_dict := ∅;
                   scheme_known_ddts := [] |})
      as (snew & sr & Hs & Hsv & Hsp & Hsd & Hsok).
    specialize (Hsv [] (ddts_visible_nil pmf) (ddts_known_nil pmf [])).
    rewrite Hs. simpl in *.
    assert (Hlen : length host_files = length hnew).
    { rewrite <- (Hhok hst eq_refl). by rewrite length_fmap. }
    destruct sr as [sst|m|]; simpl;
      rewrite take_app_length', drop_app_length' by done;
      repeat split; try done.
    + exact (Hhok hst eq_refl).
    + exact (Hsok sst eq_refl).
  - simpl. apply prefix_length in Hhp as Hle. rewrite length_fmap in Hle.
    rewrite take_ge, drop_ge by done.
    repeat split; try done; apply prefix_nil.
  - simpl. apply prefix_length in Hhp as Hle. rewrite length_fmap in Hle.
    rewrite take_ge, drop_ge by done.
    repeat split; try done; apply prefix_nil.
Qed.

(** C3 (as amended): the titles are keys of the host collection and of the
    scheme collection, each on its own.  Registering the headers of a file,
    a header whose title is in the collection already, or is the title of a
    header before it in the file, stops the registration with the error of
    a duplicate, whatever else the header holds. *)
Theorem duplicate_title_fails (filename : string) (pre post : list Header)
    (header : Header) :
  (∀ st : host_state,
     is_Some (host_meta_headers st !! title header) ∨
     title header ∈ title <$> pre →
     ∃ dup o, register_host_headers filename (pre ++ header :: post) st =
              CCPPError (duplicate_message dup o filename)) ∧
  (∀ st : scheme_state,
     is_Some (scheme_header_dict st !! title header) ∨
     title header ∈ title <$> pre →
     ∃ dup o, register_scheme_headers filename (pre ++ header :: post) st =
              CCPPError (duplicate_message dup o filename)).
Proof.
  split.
  - induction pre as [|p pre IH]; intros st Hdup; simpl.
    + destruct Hdup as [[o Ho]|Hin]; [|by apply elem_of_nil in Hin].
      exists header, o. unfold register_host_header. by rewrite Ho.
    + destruct (register_host_header filename st p) as [st1| |] eqn:H1; simpl.
      * apply IH.
        apply register_host_header_Ok in H1 as (_ & -> & _).
        destruct Hdup as [[o Ho]|Hin].
        -- left. destruct (decide (title p = title header)) as [->|Hne].
           ++ rewrite lookup_insert_eq. eauto.
           ++ rewrite lookup_insert_ne by done. eauto.
        -- rewrite fmap_cons in Hin. apply elem_of_cons in Hin as [->|Hin].
           ++ left. rewrite lookup_insert_eq. eauto.
           ++ by right.
      * unfold register_host_header in H1.
        destruct (host_meta_headers st !! title p) as [o|]; [|done].
        injection H1 as <-. by exists p, o.
      * unfold register_host_header in H1.
        by destruct (host_meta_headers st !! title p).
  - induction pre as [|p pre IH]; intros st Hdup; simpl.
    + destruct Hdup as [[o Ho]|Hin]; [|by apply elem_of_nil in Hin].
      exists header, o. unfold register_scheme_header. by rewrite Ho.
    + destruct (register_scheme_header filename st p) as [st1| |] eqn:H1;
        simpl.
      * apply IH.
        apply register_scheme_header_Ok in H1 as (_ & -> & _).
        destruct Hdup as [[o Ho]|Hin].
        -- left. destruct (decide (title p = title header)) as [->|Hne].
           ++ rewrite lookup_insert_eq. eauto.
           ++ rewrite lookup_insert_ne by done. eauto.
        -- rewrite fmap_cons in Hin. apply elem_of_cons in Hin as [->|Hin].
           ++ left. rewrite lookup_insert_eq. eauto.
           ++ by right.
      * unfold register_scheme_header in H1.
        destruct (scheme_header_dict st !! title p) as [o|]; [|done].
        injection H1 as <-. by exists p, o.
      * unfold register_scheme_header in H1.
        by destruct (scheme_header_dict st !! title p).
Qed.

End AggregateFacts.

(** C2 (as the claim states it) fails: the host file [host.meta] registers
    the ddt [state_type], and the scheme file [foo.meta], processed after
    it in the same run, is parsed with no known derived type. *)
Lemma ddt_forward_visibility_counterexample :
  ∃ hst sst,
    demo_run ["host.meta"] ["foo.meta"] =
      ([("host.meta", []); ("foo.meta", [])], Ok (hst, sst)) ∧
    host_meta_headers hst !! "state_type" = Some state_type_header ∧
    header_type state_type_header = "ddt" ∧
    "state_type" ∉ (@nil string).
Proof.
  eexists _, _. split; [reflexivity|]. split; [reflexivity|].
  split; [reflexivity|]. apply not_elem_of_nil.
Qed.

Lemma duplicate_title_fails_witness :
  ∃ hst sst,
    (demo_run ["host.meta"] []).2 = Ok (hst, sst) ∧
    ∃ dup o, register_host_headers "types.meta" [state_type_header] hst =
             CCPPError (duplicate_message dup o "types.meta").
Proof.
  eexists _, _. split; [reflexivity|].
  apply (proj1 (duplicate_title_fails "types.meta" [] [] state_type_header)).
  left. exists state_type_header. reflexivity.
Defined.

(** C3 (as the claim states it) fails: [state_type] is registered from the
    host file [host.meta], and the same header is registered again from
    the scheme file [types.meta] of the same run without an error. *)
Lemma duplicate_title_fails_counterexample :
  ∃ hst sst,
    (demo_run ["host.meta"] ["types.meta"]).2 = Ok (hst, sst) ∧
    host_meta_headers hst !! "state_type" = Some state_type_header ∧
    scheme_header_dict sst !! "state_type" = Some state_type_header ∧
    scheme_meta_headers sst = [state_type_header].
Proof. eexists _, _. repeat split; reflexivity. Qed.

(** Among the host files the second registration is refused. *)
Example duplicate_in_host_files :
  (demo_run ["host.meta"; "types.meta"] []).2 =
  CCPPError "Duplicate ddt, state_type, found in types.meta".
Proof. reflexivity. Qed.

(** And among the scheme files. *)
Example duplicate_in_scheme_files :
  (demo_run [] ["types.meta"; "foo.meta"; "types.meta"]).2 =
  CCPPError "Duplicate ddt, state_type, found in types.meta".
Proof. reflexivity. Qed.

(** Titles that differ in the case of a letter are different keys. *)
Example titles_case_sensitive :
  ∃ st, register_host_headers "host.meta"
          [header_of "State" "host" []; header_of "state" "host" []]
          {| host_meta_headers := ∅; host_known_ddts := [] |} = Ok st.
Proof. eexists. reflexivity. Qed.

(** ** Unique titles at the end of a parse *)

Section TitleFacts.

Variable conv : Header → Var → list string.
Variable pmf : string → list string → result (list Header).
Variable pff : string → string → result (list Header).
Variable pe : string → bool.

Lemma register_scheme_headers_unique (f : string) (hs : list Header)
    (st st' : scheme_state) :
  register_scheme_headers f hs st = Ok st' →
  scheme_titles_unique st → scheme_titles_unique st'.
Proof.
  revert st. induction hs as [|h hs IH]; intros st; simpl.
  - by intros [= <-].
  - destruct (register_scheme_header f st h) as [st1| |] eqn:H1; simpl;
      [|done..].
    intros H2 [Hnd Hdom]. apply (IH st1 H2).
    apply register_scheme_header_Ok in H1 as (Hnone & Hd & Hm & _).
    unfold scheme_titles_unique. rewrite Hd, Hm. split.
    + rewrite fmap_app. change (title <$> [h]) with [title h].
      apply NoDup_app. split; [done|]. split.
      * intros t Hin [->|[]%elem_of_nil]%elem_of_cons.
        apply Hdom in Hin. rewrite Hnone in Hin. by destruct Hin.
      * apply NoDup_singleton.
    + intros t. rewrite fmap_app, elem_of_app, <- Hdom.
      change (title <$> [h]) with [title h].
      destruct (decide (title h = t)) as [->|Hne].
      * rewrite lookup_insert_eq. split; [intros _|by eauto].
        right. apply list_elem_of_here.
      * rewrite lookup_insert_ne by done. split; [by left|].
        intros [H|[->|[]%elem_of_nil]%elem_of_cons]; done.
Qed.

Lemma register_host_headers_keys (f : string) (hs : list Header)
    (st st' : host_state) :
  register_host_headers f hs st = Ok st' →
  host_titles_keys st → host_titles_keys st'.
Proof.
  revert st. induction hs as [|h hs IH]; intros st; simpl.
  - by intros [= <-].
  - destruct (register_host_header f st h) as [st1| |] eqn:H1; simpl;
      [|done..].
    intros H2 Hkeys. apply (IH st1 H2).
    apply register_host_header_Ok in H1 as (_ & Hmap & _).
    intros t h'. rewrite Hmap.
    destruct (decide (title h = t)) as [Heq|Hne].
    + rewrite <- Heq, lookup_insert_eq. by intros [= <-].
    + rewrite lookup_insert_ne by done. apply Hkeys.
Qed.

Lemma scheme_file_registers (pd : string) (st st' : scheme_state) (f : string)
    (calls calls' : list parse_call) :
  scheme_file conv pmf pff pe pd st f calls = (calls', Ok st') →
  ∃ hs, register_scheme_headers f hs st = Ok st'.
Proof.
  unfold scheme_file, call_parse_metadata_file, no_call, mbind, run_bind.
  destruct (pmf f (scheme_known_ddts st)) as [hs| |]; [|done..]. simpl.
  destruct (find_associated_fortran_file pe f) as [ff| |]; simpl; [|done..].
  destruct (pff ff pd) as [fhs| |]; simpl; [|done..].
  destruct (check_fortran_against_metadata conv hs fhs f ff) as [[]| |];
    simpl; [|done..].
  intros [= _ H]. by exists hs.
Qed.

Lemma host_file_registers (pd : string) (st st' : host_state) (f : string)
    (calls calls' : list parse_call) :
  host_file conv pmf pff pe pd st f calls = (calls', Ok st') →
  ∃ hs, register_host_headers f hs st = Ok st'.
Proof.
  unfold host_file, call_parse_metadata_file, no_call, mbind, run_bind.
  destruct (pmf f (host_known_ddts st)) as [hs| |]; [|done..]. simpl.
  destruct (find_associated_fortran_file pe f) as [ff| |]; simpl; [|done..].
  destruct (pff ff pd) as [fhs| |]; simpl; [|done..].
  destruct (check_fortran_against_metadata conv hs fhs f ff) as [[]| |];
    simpl; [|done..].
  intros [= _ H]. by exists hs.
Qed.

(** The scheme headers that [parse_scheme_files] returns have pairwise
    distinct titles. *)
Lemma parse_scheme_files_unique (files : list string) (pd : string)
    (calls calls' : list parse_call) (st : scheme_state) :
  parse_scheme_files conv pmf pff pe files pd calls = (calls', Ok st) →
  NoDup (title <$> scheme_meta_headers st).
Proof.
  unfold parse_scheme_files.
  assert (Hinit : scheme_titles_unique
            {| scheme_meta_headers := []; scheme_header_dict := ∅;
               scheme_known_ddts := [] |}).
  { split; [apply NoDup_nil_2|]. intros t. simpl. rewrite lookup_empty.
    split; [by intros [? ?]|by intros ?%elem_of_nil]. }
  revert Hinit. generalize (mkSchemeState [] ∅ []). intros st0 Hinit.
  revert st0 calls Hinit.
  induction files as [|f files IH]; intros st0 calls Hinit; simpl.
  - intros [= _ <-]. apply Hinit.
  - unfold mbind, run_bind.
    destruct (scheme_file conv pmf pff pe pd st0 f calls) as [calls1 [st1| |]]
      eqn:H1; [|done..].
    apply scheme_file_registers in H1 as (hs & Hreg).
    apply IH. by eapply register_scheme_headers_unique.
Qed.

(** Every header of the title map that [parse_host_model_files] returns
    is kept under its own title. *)
Lemma parse_host_model_files_keys (files : list string) (pd : string)
    (calls calls' : list parse_call) (st : host_state) :
  parse_host_model_files conv pmf pff pe files pd calls = (calls', Ok st) →
  host_titles_keys st.
Proof.
  unfold parse_host_model_files.
  assert (Hinit : host_titles_keys
            {| host_meta_headers := ∅; host_known_ddts := [] |}).
  { intros t h. simpl. by rewrite lookup_empty. }
  revert Hinit. generalize (mkHostState ∅ []). intros st0 Hinit.
  revert st0 calls Hinit.
  induction files as [|f files IH]; intros st0 calls Hinit; simpl.
  - by intros [= _ <-].
  - unfold mbind, run_bind.
    destruct (host_file conv pmf pff pe pd st0 f calls) as [calls1 [st1| |]]
      eqn:H1; [|done..].
    apply host_file_registers in H1 as (hs & Hreg).
    apply IH. by eapply register_host_headers_keys.
Qed.

End TitleFacts.

(** * Further properties of the functions *)

(** ** find_var_in_list *)

Lemma find_var_from_spec (lname : string) (i : Z) (l : list Var) :
  match find_var_from lname i l with
  | (Some v, r) =>
      ∃ k : nat, r = i + Z.of_nat k ∧ l !! k = Some v ∧
                 lower (local_name v) = lname ∧
                 ∀ j w, (j < k)%nat → l !! j = Some w →
                        lower (local_name w) ≠ lname
  | (None, r) => r = -1 ∧ lname ∉ lnames l
  end.
Proof.
  revert i. induction l as [|h l IH]; intros i; simpl.
  - split; [done|apply not_elem_of_nil].
  - destruct (String.eqb_spec (lower (local_name h)) lname) as [Heq|Hne].
    + exists 0%nat. split; [lia|]. split; [done|]. split; [done|]. lia.
    + specialize (IH (i + 1)).
      destruct (find_var_from lname (i + 1) l) as [[v|] r].
      * destruct IH as (k & -> & Hk & Hv & Hfirst). exists (S k).
        split; [lia|]. split; [done|]. split; [done|].
        intros [|j] w Hj Hw; simpl in Hw; [by injection Hw as <-|].
        apply (Hfirst j w); [lia|done].
      * destruct IH as [-> Hnot]. split; [done|].
        apply not_elem_of_cons. done.
Qed.

(** [find_var_in_list] returns the first variable of the list whose local
    name is the given one up to letter case, with its index, and [None]
    with the index -1 exactly when the list has no such variable. *)
Theorem find_var_in_list_spec (name : string) (var_list : list Var) :
  match find_var_in_list name var_list with
  | (Some v, r) =>
      ∃ k : nat, r = Z.of_nat k ∧ var_list !! k = Some v ∧
                 lower (local_name v) = lower name ∧
                 ∀ j w, (j < k)%nat → var_list !! j = Some w →
                        lower (local_name w) ≠ lower name
  | (None, r) => r = -1 ∧ lower name ∉ lnames var_list
  end.
Proof.
  unfold find_var_in_list.
  pose proof (find_var_from_spec (lower name) 0 var_list) as H.
  destruct (find_var_from (lower name) 0 var_list) as [[v|] r]; [|done].
  destruct H as (k & -> & H). exists k. split; [lia|done].
Qed.

(** ** add_error *)

Lemma add_error_nonempty (e x : string) :
  e ≠ "" → add_error e x = e +:+ nl +:+ x.
Proof.
  intros He. unfold add_error. apply nonempty_true in He. rewrite He.
  apply app_assoc_s.
Qed.

Lemma add_error_not_empty (e x : string) : e ≠ "" → add_error e x ≠ "".
Proof.
  intros He. rewrite add_error_nonempty by done. by destruct e.
Qed.

Lemma fold_add_error (e : string) (msgs : list string) :
  e ≠ "" → fold_left add_error msgs e = join nl (e :: msgs).
Proof.
  revert e. induction msgs as [|x r IH]; intros e He; [done|].
  simpl fold_left. rewrite IH by (by apply add_error_not_empty).
  rewrite add_error_nonempty by done.
  destruct r as [|y r]; simpl; [done|]. by rewrite !app_assoc_s.
Qed.

Lemma count_char_app (c : ascii) (a b : string) :
  count_char c (a +:+ b) = count_char c a + count_char c b.
Proof.
  induction a as [|x a IH]; [done|].
  change (String x a +:+ b) with (String x (a +:+ b)). simpl.
  rewrite IH. lia.
Qed.

Lemma count_char_absent (c : ascii) (s : string) :
  contains c s = false → count_char c s = 0.
Proof.
  induction s as [|a s IH]; [done|]. simpl.
  destruct (Ascii.eqb a c); [done|]. intros H. rewrite IH by done. lia.
Qed.

Lemma count_char_join_lines (msgs : list string) :
  Forall (λ m, contains (ascii_of_nat 10) m = false) msgs →
  msgs ≠ [] →
  count_char (ascii_of_nat 10) (join nl msgs) + 1 = Z.of_nat (length msgs).
Proof.
  induction 1 as [|x r Hx Hr IH]; [done|]. intros _.
  destruct r as [|y r].
  - simpl. rewrite count_char_absent by done. lia.
  - change (join nl (x :: y :: r)) with (x +:+ nl +:+ join nl (y :: r)).
    rewrite !count_char_app, count_char_absent by done.
    specialize (IH ltac:(done)). simpl length in *.
    change (count_char (ascii_of_nat 10) nl) with 1. lia.
Qed.

Lemma add_error_accumulates_lines (msgs : list string) :
  Forall (λ m, m ≠ "") msgs → fold_left add_error msgs "" = join nl msgs.
Proof.
  intros Hne. destruct Hne as [|x r Hx Hr]; [done|].
  simpl fold_left. rewrite add_error_empty. by apply fold_add_error.
Qed.

(** Diagnostics added one by one with [add_error], none of them empty, are
    the diagnostics joined by newlines; when none of them holds a newline,
    the count of errors taken on the text is their number. *)
Theorem add_error_accumulates (msgs : list string) :
  Forall (λ m, m ≠ "") msgs →
  fold_left add_error msgs "" = join nl msgs ∧
  (Forall (λ m, contains (ascii_of_nat 10) m = false) msgs → msgs ≠ [] →
   num_errors (fold_left add_error msgs "") = Z.of_nat (length msgs)).
Proof.
  intros Hne.
  assert (Hfold : fold_left add_error msgs "" = join nl msgs).
  { destruct Hne as [|x r Hx Hr]; [done|].
    simpl fold_left. rewrite add_error_empty. by apply fold_add_error. }
  split; [done|]. intros Hnl Hmsgs. rewrite Hfold. unfold num_errors.
  by apply count_char_join_lines.
Qed.

Lemma add_error_accumulates_witness :
  fold_left add_error ["rank"; "kind"; "type"] "" =
  "rank" +:+ nl +:+ "kind" +:+ nl +:+ "type".
Proof.
  apply (add_error_accumulates ["rank"; "kind"; "type"]).
  repeat constructor; discriminate.
Defined.

(** ** dims_comp and the table types *)

(** [dims_comp] returns a diagnostic exactly when the number of metadata
    dimensions differs from the number of converted Fortran dimensions, and
    it is then the one line of the rank mismatch with the two ranks. *)
Theorem dims_comp_reports_rank_only (conv : Header → Var → list string)
    (mh : Header) (mvar fvar : Var) (ttl : string) (cs : bool) :
  dims_comp conv mh mvar fvar ttl cs =
  if decide (length (dimensions mvar) = length (conv mh fvar)) then ""
  else rank_mismatch_message mvar ttl (length (dimensions mvar))
         (length (conv mh fvar)).
Proof.
  destruct (decide _) as [Heq|Hne]; [by apply dims_comp_equal_rank|].
  unfold dims_comp, get_dimensions.
  destruct (Z.eqb_spec (Z.of_nat (length (dimensions mvar)))
              (Z.of_nat (length (conv mh fvar)))); [lia|].
  reflexivity.
Qed.

(** [compare_fheader_to_mheader] raises exactly when the two table types
    differ and the pair is not a host table in a Fortran module or scheme;
    what it raises is the error of the table type mismatch, and in every
    other case it returns a text of diagnostics. *)
Theorem compare_raises_iff (conv : Header → Var → list string)
    (mh fh : Header) :
  (raises (compare_fheader_to_mheader conv mh fh) ↔
   header_type mh ≠ header_type fh ∧
   ¬ (header_type mh = "host" ∧
      (header_type fh = "module" ∨ header_type fh = "scheme"))) ∧
  (raises (compare_fheader_to_mheader conv mh fh) →
   compare_fheader_to_mheader conv mh fh =
   CCPPError (type_mismatch_message mh fh)).
Proof.
  assert (Hiff : raises (compare_fheader_to_mheader conv mh fh) ↔
    header_type mh ≠ header_type fh ∧
    ¬ (header_type mh = "host" ∧
       (header_type fh = "module" ∨ header_type fh = "scheme"))).
  { split.
    - unfold compare_fheader_to_mheader.
      destruct (String.eqb_spec (header_type mh) (header_type fh)) as [Heq|Hne];
        [done|]. simpl negb. cbv iota.
      destruct (String.eqb_spec (header_type mh) "host") as [Hh|Hh].
      + destruct (str_in (header_type fh) ["module"; "scheme"]) eqn:Hin.
        * unfold str_in in Hin. simpl in Hin |- *. rewrite Hin. intros [].
        * intros _. split; [done|].
          intros [_ [Hf|Hf]]; rewrite Hf in Hin; discriminate Hin.
      + intros _. split; [done|]. by intros [? _].
    - intros [Hne Hnot]. by rewrite compare_type_mismatch. }
  split; [done|]. intros Hr. apply Hiff in Hr as [Hne Hnot].
  by apply compare_type_mismatch.
Qed.

Lemma compare_raises_iff_witness :
  compare_fheader_to_mheader dims_as_declared
    (header_of "state" "ddt" []) (header_of "state" "module" []) =
  CCPPError "Metadata table type mismatch for state, ddt != module".
Proof.
  apply (compare_raises_iff dims_as_declared (header_of "state" "ddt" [])
           (header_of "state" "module" [])).
  exact I.
Defined.

(** ** Tables whose order is free *)

Lemma str_in_elem_of (x : string) (l : list string) : str_in x l = true ↔ x ∈ l.
Proof.
  unfold str_in. rewrite existsb_exists. setoid_rewrite list_elem_of_In.
  split.
  - intros (y & Hy & Heq). apply String.eqb_eq in Heq. by subst.
  - intros Hx. exists x. split; [done|apply String.eqb_refl].
Qed.

Lemma absent_from_spec (flist : list Var) (m : Var) :
  absent_from flist m = true ↔ lower (local_name m) ∉ lnames flist.
Proof.
  unfold absent_from. rewrite negb_true_iff, <- not_true_iff_false.
  by rewrite str_in_elem_of.
Qed.

Section FreeOrder.

Variable conv : Header → Var → list string.

(** Where the order is free, a metadata variable that agrees with the
    Fortran variable of its name adds no diagnostic, wherever that is. *)
Lemma compare_var_found (mh fh : Header) (errors : string) (k p : nat)
    (m f : Var) :
  str_in (header_type fh) _ORDERED_TABLE_TYPES = false →
  NoDup (lnames (variable_list fh)) →
  variable_list fh !! p = Some f →
  var_agree conv mh m f →
  is_arrayspec (local_name m) = false →
  (k < length (variable_list fh))%nat →
  compare_var conv mh fh errors (Z.of_nat k) m = errors.
Proof.
  intros Hord Hnd Hp (Hn & Ht & Hkd & Hi & Hd) Harr Hk. unfold compare_var.
  rewrite (find_var_in_list_lookup _ _ p f Hnd Hp Hn), Harr, Hord.
  destruct (Z.geb_spec (Z.of_nat k) (Z.of_nat (length (variable_list fh))));
    [lia|].
  rewrite andb_false_l.
  rewrite (var_comp_agree "local_name") by (simpl; by rewrite Hn).
  simpl nonempty. cbv iota.
  rewrite (var_comp_agree "type"), (var_comp_agree "kind"),
    (var_comp_agree "intent"), dims_comp_equal_rank by done.
  rewrite !add_if_empty. by destruct (String.eqb _ _).
Qed.

(** A metadata variable that the Fortran list does not have, at a place
    the Fortran list reaches, adds the one diagnostic that names it. *)
Lemma compare_var_absent (mh fh : Header) (errors : string) (k : nat)
    (m : Var) :
  lower (local_name m) ∉ lnames (variable_list fh) →
  (k < length (variable_list fh))%nat →
  compare_var conv mh fh errors (Z.of_nat k) m =
  add_error errors (no_fortran_variable (title mh) (local_name m)).
Proof.
  intros Habs Hk. unfold compare_var, find_var_in_list.
  rewrite find_var_from_none by done.
  destruct (Z.geb_spec (Z.of_nat k) (Z.of_nat (length (variable_list fh))));
    [lia|done].
Qed.

Lemma compare_vars_free (mh fh : Header) (l : list Var) (k : nat)
    (errors : string) :
  str_in (header_type fh) _ORDERED_TABLE_TYPES = false →
  NoDup (lnames (variable_list fh)) →
  (k + length l ≤ length (variable_list fh))%nat →
  Forall (λ m, is_arrayspec (local_name m) = false ∧
               ∀ f, f ∈ variable_list fh →
                    lower (local_name m) = lower (local_name f) →
                    var_agree conv mh m f) l →
  compare_vars conv mh fh (Z.of_nat k) l errors =
  fold_left add_error
    ((λ m, no_fortran_variable (title mh) (local_name m)) <$>
     List.filter (absent_from (variable_list fh)) l) errors.
Proof.
  intros Hord Hnd. revert k errors.
  induction l as [|m l IH]; intros k errors Hlen Hall; [done|].
  apply Forall_cons in Hall as [[Harr Hag] Hall]. simpl in Hlen.
  simpl compare_vars. simpl List.filter.
  replace (Z.of_nat k + 1) with (Z.of_nat (S k)) by lia.
  destruct (absent_from (variable_list fh) m) eqn:Habs.
  - apply absent_from_spec in Habs.
    rewrite compare_var_absent by (done || lia).
    rewrite fmap_cons. simpl fold_left. apply IH; [lia|done].
  - assert (Hin : lower (local_name m) ∈ lnames (variable_list fh)).
    { destruct (decide (lower (local_name m) ∈ lnames (variable_list fh)))
        as [H|H]; [done|].
      apply absent_from_spec in H. congruence. }
    apply list_elem_of_fmap in Hin as (f & Hname & Hf).
    pose proof Hf as Hf'. apply list_elem_of_lookup in Hf' as (p & Hp).
    rewrite (compare_var_found mh fh errors k p m f) by (done || lia || eauto).
    apply IH; [lia|done].
Qed.

Lemma same_name_same_var (l : list Var) (f f' : Var) :
  NoDup (lnames l) → f ∈ l → f' ∈ l →
  lower (local_name f) = lower (local_name f') → f = f'.
Proof.
  intros Hnd Hf Hf' Heq.
  apply list_elem_of_lookup in Hf as (i & Hi).
  apply list_elem_of_lookup in Hf' as (j & Hj).
  assert (i = j) as ->; [|congruence].
  apply (NoDup_lookup (lnames l) i j (lower (local_name f))); [done|..];
    unfold lnames; rewrite list_lookup_fmap.
  - by rewrite Hi.
  - by rewrite Hj, Heq.
Qed.

Lemma filter_none {A} (P : A → bool) (l : list A) :
  Forall (λ x, P x = false) l → List.filter P l = [].
Proof. induction 1 as [|x l Hx _ IH]; simpl; [done|]. by rewrite Hx. Qed.

(** For a module, host or ddt table the metadata variables may come in any
    order and the Fortran side may declare more: when every metadata
    variable agrees with a Fortran variable (name, type, kind and intent up
    to case, and rank), wherever it is declared, the comparison returns the
    empty string. *)
Theorem free_order_tables (mh fh : Header) :
  header_type mh = header_type fh →
  header_type fh = "module" ∨ header_type fh = "host" ∨ header_type fh = "ddt" →
  NoDup (lnames (variable_list fh)) →
  (length (variable_list mh) ≤ length (variable_list fh))%nat →
  Forall (λ m, is_arrayspec (local_name m) = false ∧
               ∃ f, f ∈ variable_list fh ∧ var_agree conv mh m f)
         (variable_list mh) →
  compare_fheader_to_mheader conv mh fh = Ok "".
Proof.
  intros Ht Hty Hnd Hlen Hall.
  destruct (extra_not_ordered _ Hty) as [Hextra Hord].
  unfold compare_fheader_to_mheader.
  rewrite Ht, String.eqb_refl. simpl negb. cbv iota. f_equal.
  rewrite arity_errors_extra by done.
  change (compare_vars conv mh fh 0) with (compare_vars conv mh fh (Z.of_nat 0)).
  rewrite (compare_vars_free mh fh (variable_list mh) 0%nat "" Hord Hnd Hlen).
  - rewrite filter_none; [done|].
    eapply Forall_impl; [exact Hall|]. intros m (_ & f & Hf & Hag).
    apply not_true_iff_false. rewrite absent_from_spec. intros Habs.
    apply Habs. destruct Hag as [Hn _]. rewrite Hn.
    apply list_elem_of_fmap. by exists f.
  - eapply Forall_impl; [exact Hall|]. intros m (Harr & f & Hf & Hag).
    split; [done|]. intros f' Hf' Hname.
    assert (f = f') as <-; [|done].
    apply (same_name_same_var (variable_list fh)); try done.
    destruct Hag as [Hn _]. congruence.
Qed.

(** For a module, host or ddt table with no more metadata variables than
    Fortran variables, none an array reference, where a metadata variable
    agrees with the Fortran variable of its name when there is one: the
    comparison returns one diagnostic for every metadata variable that the
    Fortran side does not have, naming it, in the order of the metadata,
    and nothing else. *)
Theorem missing_variables_itemised (mh fh : Header) :
  header_type mh = header_type fh →
  header_type fh = "module" ∨ header_type fh = "host" ∨ header_type fh = "ddt" →
  NoDup (lnames (variable_list fh)) →
  (length (variable_list mh) ≤ length (variable_list fh))%nat →
  Forall (λ m, is_arrayspec (local_name m) = false ∧
               ∀ f, f ∈ variable_list fh →
                    lower (local_name m) = lower (local_name f) →
                    var_agree conv mh m f)
         (variable_list mh) →
  compare_fheader_to_mheader conv mh fh =
  Ok (join nl ((λ m, no_fortran_variable (title mh) (local_name m)) <$>
               List.filter (absent_from (variable_list fh)) (variable_list mh))).
Proof.
  intros Ht Hty Hnd Hlen Hall.
  destruct (extra_not_ordered _ Hty) as [Hextra Hord].
  unfold compare_fheader_to_mheader.
  rewrite Ht, String.eqb_refl. simpl negb. cbv iota. f_equal.
  rewrite arity_errors_extra by done.
  change (compare_vars conv mh fh 0) with (compare_vars conv mh fh (Z.of_nat 0)).
  rewrite (compare_vars_free mh fh (variable_list mh) 0%nat "" Hord Hnd Hlen)
    by done.
  apply add_error_accumulates_lines.
  apply Forall_fmap, Forall_forall. intros m _. by unfold no_fortran_variable.
Qed.

End FreeOrder.

Lemma free_order_tables_witness :
  compare_fheader_to_mheader dims_as_declared narrow_table wide_module = Ok "".
Proof.
  apply free_order_tables.
  - reflexivity.
  - left. reflexivity.
  - compute_done.
  - simpl. lia.
  - repeat constructor.
    + exists (real_var "t" ["ncol"; "lev"]). split; [|by repeat constructor].
      apply list_elem_of_further, list_elem_of_here.
    + exists (real_var "ps" ["ncol"]). split; [|by repeat constructor].
      apply list_elem_of_here.
Defined.

Lemma missing_variables_itemised_witness :
  compare_fheader_to_mheader dims_as_declared table_with_stranger wide_module =
  Ok "Variable mismatch in state, no Fortran variable q.".
Proof.
  apply (missing_variables_itemised dims_as_declared table_with_stranger
           wide_module).
  - reflexivity.
  - left. reflexivity.
  - compute_done.
  - simpl. lia.
  - repeat (apply Forall_cons_2 || apply Forall_nil_2); (split; [reflexivity|]);
      intros f Hf Hname;
      repeat (apply elem_of_cons in Hf as [->|Hf]);
      try (by apply elem_of_nil in Hf); try discriminate Hname;
      by repeat constructor.
Defined.

(** ** Pairing with distinct titles *)

Lemma unpaired_with_distinct_titles (ms : list Header) (fs : list Header)
    (ff : string) (d : list (Header * Header)) (pool : list Header) :
  NoDup (title <$> fs) →
  pair_headers ms fs ff [] = Ok (d, pool) →
  ∀ f, f ∈ pool ↔ f ∈ fs ∧ title f ∉ title <$> ms.
Proof.
  intros Hnd Hp f.
  destruct (pair_headers_Ok _ _ _ _ _ _ Hp) as (d' & -> & H1 & H2 & H3).
  simpl in *.
  assert (Htitles : title <$> d'.*2 = title <$> ms).
  { rewrite <- H1. clear -H2.
    induction H2 as [|[m f'] d Hm _ IH]; [done|].
    rewrite !fmap_cons, IH. simpl in *. by rewrite Hm. }
  rewrite H3, fmap_app, Htitles in Hnd.
  apply NoDup_app in Hnd as (_ & Hdisj & _).
  rewrite H3, elem_of_app. split.
  - intros Hf. split; [by right|]. intros Hin. apply (Hdisj _ Hin).
    apply list_elem_of_fmap. by exists f.
  - intros [[Hf|Hf] Hnot]; [|done]. exfalso. apply Hnot.
    rewrite <- Htitles. apply list_elem_of_fmap. by exists f.
Qed.

Lemma lookup_failure_distinct (ms fs : list Header) :
  NoDup (title <$> ms) →
  (∃ pre m post, ms = pre ++ m :: post ∧
                 (titled (title m) fs ≤ titled (title m) pre)%nat) ↔
  (∃ m, m ∈ ms ∧ title m ∉ title <$> fs).
Proof.
  intros Hnd. split.
  - intros (pre & m & post & -> & Hle). exists m.
    split; [apply elem_of_app; right; apply list_elem_of_here|].
    apply titled_zero. rewrite fmap_app, fmap_cons in Hnd.
    apply NoDup_app in Hnd as (_ & Hnot & _).
    assert (Hpre : titled (title m) pre = 0%nat).
    { apply titled_zero. intros Hin. apply (Hnot _ Hin), list_elem_of_here. }
    lia.
  - intros (m & Hin & Hnot).
    apply list_elem_of_split in Hin as (pre & post & ->).
    exists pre, m, post. split; [done|]. apply titled_zero in Hnot. lia.
Qed.

(** With distinct titles among the metadata headers and among the Fortran
    headers of a file, the pairing raises exactly when a metadata header
    has a title that no Fortran header has, or a Fortran header with
    variables has a title that no metadata header has. *)
Theorem pairing_with_distinct_titles (ms fs : list Header) (mf ff : string) :
  NoDup (title <$> ms) → NoDup (title <$> fs) →
  raises (pair_all ms fs mf ff) ↔
  (∃ m, m ∈ ms ∧ title m ∉ title <$> fs) ∨
  (∃ f, f ∈ fs ∧ has_variables f = true ∧ title f ∉ title <$> ms).
Proof.
  intros Hm Hf. rewrite <- (lookup_failure_distinct ms fs Hm).
  rewrite <- (pair_headers_fails ms fs ff []). unfold pair_all.
  destruct (pair_headers ms fs ff []) as [[d pool]|msg|] eqn:Hp; simpl.
  - pose proof (unpaired_with_distinct_titles ms fs ff d pool Hf Hp) as Hpool.
    assert (Hr : raises (check_unmatched pool mf ≫= λ _, Ok d) ↔
                 raises (check_unmatched pool mf))
      by (by destruct (check_unmatched pool mf) as [[]| |]).
    rewrite Hr, check_unmatched_raises. split.
    + intros (f & Hin & Hv). right. exists f. apply Hpool in Hin as [? ?].
      done.
    + intros [[]|(f & Hin & Hv & Hnot)]. exists f. split; [|done].
      by apply Hpool.
  - split; [by left|done].
  - split; [by left|done].
Qed.

Lemma pairing_with_distinct_titles_witness :
  raises (pair_all foo_meta_headers
            (header_of "bar_run" "scheme" [real_var "a" []] :: foo_fort_headers)
            "foo.meta" "foo.F90").
Proof.
  apply pairing_with_distinct_titles.
  - compute_done.
  - compute_done.
  - right. exists (header_of "bar_run" "scheme" [real_var "a" []]).
    split; [apply list_elem_of_here|]. split; [reflexivity|]. compute_done.
Defined.

(** ** The message of the Fortran headers left over *)

Lemma py_format_unmatched (e ttl mf : string) :
  no_brace e = true →
  py_format (e +:+ "No matching metadata header found for {} in {}") [ttl; mf] =
  Some (e +:+ unmatched_message ttl mf).
Proof.
  intros He. rewrite py_format_no_brace_app by done. simpl.
  unfold unmatched_message. by rewrite app_nil_r_s.
Qed.

Lemma join_push (e x : string) (r : list string) :
  join nl ((e +:+ nl +:+ x) :: r) = join nl (e :: x :: r).
Proof. destruct r as [|y r]; simpl; [done|]. by rewrite !app_assoc_s. Qed.

Lemma unmatched_message_no_brace (ttl mf : string) :
  no_brace ttl = true → no_brace mf = true →
  no_brace (unmatched_message ttl mf) = true.
Proof.
  intros Ht Hmf. unfold unmatched_message.
  repeat first [rewrite no_brace_app | rewrite no_brace_cons].
  by rewrite Ht, Hmf.
Qed.

Lemma unmatched_errmsg_cons (f : Header) (rest : list Header)
    (mf e sep : string) :
  unmatched_errmsg (f :: rest) mf e sep =
  if has_variables f then
    match py_format
            (e +:+ sep +:+ "No matching metadata header found for {} in {}")
            [title f; mf] with
    | None => FormatError
    | Some errmsg => unmatched_errmsg rest mf errmsg nl
    end
  else unmatched_errmsg rest mf e sep.
Proof. reflexivity. Qed.

Lemma unmatched_errmsg_later (fs : list Header) (mf e : string) :
  no_brace mf = true → Forall (λ f, no_brace (title f) = true) fs →
  no_brace e = true →
  unmatched_errmsg fs mf e nl =
  Ok (join nl (e :: ((λ f, unmatched_message (title f) mf) <$>
                     List.filter has_variables fs))).
Proof.
  intros Hmf Hfs. revert e. induction Hfs as [|f fs Hf _ IH]; intros e He.
  - done.
  - simpl unmatched_errmsg. simpl List.filter.
    destruct (has_variables f); [|by apply IH].
    rewrite <- app_assoc_s, py_format_unmatched
      by (by rewrite no_brace_app, He).
    rewrite IH.
    + by rewrite fmap_cons, app_assoc_s, join_push.
    + rewrite !no_brace_app, He, unmatched_message_no_brace by done. done.
Qed.

Lemma unmatched_errmsg_first (fs : list Header) (mf : string) :
  no_brace mf = true → Forall (λ f, no_brace (title f) = true) fs →
  unmatched_errmsg fs mf "" "" =
  Ok (join nl ((λ f, unmatched_message (title f) mf) <$>
               List.filter has_variables fs)).
Proof.
  intros Hmf Hfs. induction Hfs as [|f fs Hf Hfs IH]; [done|].
  rewrite unmatched_errmsg_cons. simpl List.filter.
  destruct (has_variables f); [|done].
  change ("" +:+ "" +:+ "No matching metadata header found for {} in {}")
    with ("" +:+ "No matching metadata header found for {} in {}").
  rewrite py_format_unmatched by done.
  change ("" +:+ unmatched_message (title f) mf)
    with (unmatched_message (title f) mf).
  rewrite unmatched_errmsg_later by (done || by apply unmatched_message_no_brace).
  done.
Qed.

(** With no brace in the metadata file name and in the titles, the check of
    the Fortran headers left over raises when one of them has variables,
    and its message has one line for each of those that have, in their
    order; the headers without variables are passed over. *)
Theorem check_unmatched_message (pool : list Header) (mf : string) :
  no_brace mf = true → Forall (λ f, no_brace (title f) = true) pool →
  check_unmatched pool mf =
  match List.filter has_variables pool with
  | [] => Ok ()
  | unmatched =>
      CCPPError (join nl ((λ f, unmatched_message (title f) mf) <$> unmatched))
  end.
Proof.
  intros Hmf Hfs. unfold check_unmatched. destruct pool as [|f0 pool0]; [done|].
  rewrite unmatched_errmsg_first by done. unfold mbind, result_bind.
  destruct (List.filter has_variables (f0 :: pool0)) as [|f r]; [done|].
  assert (Hne : nonempty (join nl ((λ f, unmatched_message (title f) mf) <$>
                                   f :: r)) = true); [|by rewrite Hne].
  rewrite fmap_cons. by destruct ((λ f, unmatched_message (title f) mf) <$> r).
Qed.

Lemma check_unmatched_message_witness :
  check_unmatched
    [header_of "foo_init" "scheme" [real_var "a" []];
     header_of "foo" "module" [];
     header_of "foo_run" "scheme" [real_var "a" []]] "foo.meta" =
  CCPPError ("No matching metadata header found for foo_init in foo.meta" +:+
             nl +:+
             "No matching metadata header found for foo_run in foo.meta").
Proof.
  apply (check_unmatched_message
           [header_of "foo_init" "scheme" [real_var "a" []];
            header_of "foo" "module" [];
            header_of "foo_run" "scheme" [real_var "a" []]] "foo.meta").
  - reflexivity.
  - repeat constructor.
Defined.

(** ** A table type mismatch inside a file *)

Section AbortFacts.

Variable conv : Header → Var → list string.

Lemma compare_headers_raises (d1 d2 : list (Header * Header))
    (ds : list string) (m f : Header) (errors msg : string) :
  Forall2 (λ p diag, compare_fheader_to_mheader conv p.1 p.2 = Ok diag) d1 ds →
  compare_fheader_to_mheader conv m f = CCPPError msg →
  compare_headers conv (d1 ++ (m, f) :: d2) errors = CCPPError msg.
Proof.
  intros HF Hc. revert errors.
  induction HF as [|[m' f'] diag d ds' Hd _ IH]; intros errors; simpl.
  - by rewrite Hc.
  - simpl in Hd. rewrite Hd. simpl. apply IH.
Qed.

(** When the headers of a file are paired and the comparison of one pair
    raises (the table types do not go together), the check of the file
    raises that error, and the diagnostics of the pairs before it are not
    reported. *)
Theorem structural_error_aborts (ms fs : list Header) (mf ff : string)
    (d1 d2 : list (Header * Header)) (ds : list string) (m f : Header)
    (msg : string) :
  pair_all ms fs mf ff = Ok (d1 ++ (m, f) :: d2) →
  Forall2 (λ p diag, compare_fheader_to_mheader conv p.1 p.2 = Ok diag) d1 ds →
  compare_fheader_to_mheader conv m f = CCPPError msg →
  check_fortran_against_metadata conv ms fs mf ff = CCPPError msg.
Proof.
  intros Hp HF Hc. unfold check_fortran_against_metadata. rewrite Hp. simpl.
  by rewrite (compare_headers_raises d1 d2 ds m f "" msg HF Hc).
Qed.

End AbortFacts.

Lemma structural_error_aborts_witness :
  check_fortran_against_metadata dims_as_declared
    [scenario_c_meta; header_of "state" "ddt" []]
    [scenario_c_fort; header_of "state" "module" []] "foo.meta" "foo.F90" =
  CCPPError "Metadata table type mismatch for state, ddt != module".
Proof.
  apply (structural_error_aborts dims_as_declared _ _ "foo.meta" "foo.F90"
           [(scenario_c_meta, scenario_c_fort)] []
           ["Variable mismatch in foo_run, variables missing from metadata header."]
           (header_of "state" "ddt" []) (header_of "state" "module" [])).
  - reflexivity.
  - repeat constructor.
  - reflexivity.
Defined.

(** ** find_associated_fortran_file *)

Lemma find_first {A} (P : A → bool) (l : list A) :
  match List.find P l with
  | Some x => P x = true ∧
              ∃ pre post, l = pre ++ x :: post ∧
                          Forall (λ y, P y = false) pre
  | None => Forall (λ y, P y = false) l
  end.
Proof.
  induction l as [|y l IH]; simpl; [done|].
  destruct (P y) eqn:Hy.
  - split; [done|]. by exists [], l.
  - destruct (List.find P l) as [x|].
    + destruct IH as (Hx & pre & post & -> & Hpre). split; [done|].
      exists (y :: pre), post. split; [done|]. by constructor.
    + by constructor.
Qed.

(** [find_associated_fortran_file] returns a path that exists, made of the
    file name up to its last dot (or the whole name and a dot) and the
    first of the extensions F90, f90, F, f for which the path exists; it
    raises, naming the metadata file, exactly when none of the four
    exists. *)
Theorem find_associated_fortran_file_spec (pe : string → bool)
    (filename : string) :
  let base := default (filename +:+ ".") (upto_last_dot filename) in
  match find_associated_fortran_file pe filename with
  | Ok p =>
      pe p = true ∧
      ∃ pre ext post,
        _FORTRAN_FILENAME_EXTENSIONS = pre ++ ext :: post ∧
        p = base +:+ ext ∧ Forall (λ e, pe (base +:+ e) = false) pre
  | CCPPError msg =>
      msg = "Cannot find Fortran file associated with " +:+ filename ∧
      Forall (λ e, pe (base +:+ e) = false) _FORTRAN_FILENAME_EXTENSIONS
  | FormatError => False
  end.
Proof.
  intros base. unfold find_associated_fortran_file.
  replace (match upto_last_dot filename with
           | Some base0 => base0
           | None => filename +:+ "."
           end) with base by (unfold base; by destruct (upto_last_dot filename)).
  pose proof (find_first pe ((λ e, base +:+ e) <$> _FORTRAN_FILENAME_EXTENSIONS))
    as H.
  destruct (List.find pe _) as [p|].
  - destruct H as (Hp & pre & post & Heq & Hpre). split; [done|].
    apply fmap_app_inv in Heq as (pre' & rest & -> & Hrest & ->).
    symmetry in Hrest. apply fmap_cons_inv in Hrest as (ext & post' & -> & -> & ->).
    exists pre', ext, post'. split; [done|]. split; [done|].
    by apply Forall_fmap in Hpre.
  - split; [done|]. by apply Forall_fmap in H.
Qed.

Lemma upto_last_dot_none (s : string) :
  contains "." s = false → upto_last_dot s = None.
Proof.
  induction s as [|c s IH]; [done|]. simpl.
  destruct (Ascii.eqb c "."); [done|]. intros H. by rewrite IH.
Qed.

Lemma upto_last_dot_suffix (stem suffix : string) :
  contains "." suffix = false →
  upto_last_dot (stem +:+ "." +:+ suffix) = Some (stem +:+ ".").
Proof.
  intros Hs. induction stem as [|c stem IH].
  - change ("" +:+ "." +:+ suffix) with (String "."%char suffix). simpl.
    by rewrite upto_last_dot_none.
  - change (String c stem +:+ "." +:+ suffix)
      with (String c (stem +:+ "." +:+ suffix)).
    simpl. by rewrite IH.
Qed.

(** Only what follows the last dot of the metadata file name is replaced:
    for a name [stem.suffix] whose suffix has no dot, the Fortran file is
    looked for as [stem.F90], [stem.f90], [stem.F] and [stem.f], in this
    order; for a name with no dot at all the extensions are added after a
    dot. *)
Theorem fortran_file_candidates (pe : string → bool) (stem suffix : string) :
  contains "." suffix = false →
  find_associated_fortran_file pe (stem +:+ "." +:+ suffix) =
    match List.find pe [stem +:+ ".F90"; stem +:+ ".f90"; stem +:+ ".F";
                        stem +:+ ".f"] with
    | Some p => Ok p
    | None => CCPPError ("Cannot find Fortran file associated with " +:+
                         stem +:+ "." +:+ suffix)
    end ∧
  find_associated_fortran_file pe suffix =
    match List.find pe [suffix +:+ ".F90"; suffix +:+ ".f90"; suffix +:+ ".F";
                        suffix +:+ ".f"] with
    | Some p => Ok p
    | None => CCPPError ("Cannot find Fortran file associated with " +:+ suffix)
    end.
Proof.
  intros Hs. unfold find_associated_fortran_file.
  rewrite upto_last_dot_suffix, upto_last_dot_none by done.
  unfold _FORTRAN_FILENAME_EXTENSIONS. rewrite !fmap_cons, fmap_nil.
  by rewrite !app_assoc_s.
Qed.

Lemma fortran_file_candidates_witness :
  find_associated_fortran_file (λ p, String.eqb p "phys/foo.v2.f90")
    ("phys/foo.v2" +:+ "." +:+ "meta") = Ok "phys/foo.v2.f90".
Proof.
  apply (fortran_file_candidates (λ p, String.eqb p "phys/foo.v2.f90")
           "phys/foo.v2" "meta").
  reflexivity.
Defined.

(** ** What the two parses return *)

Lemma filter_snoc {A} (P : A → bool) (l : list A) (x : A) :
  List.filter P (l ++ [x]) = List.filter P l ++ (if P x then [x] else []).
Proof. by rewrite List.filter_app. Qed.

Lemma titles_snoc_fresh (L : list Header) (h : Header) :
  NoDup (title <$> L) → title h ∉ title <$> L → NoDup (title <$> (L ++ [h])).
Proof.
  intros Hnd Hfresh. rewrite fmap_app. apply NoDup_app. split; [done|].
  split; [|apply NoDup_singleton].
  intros t Hin Hh. apply list_elem_of_singleton in Hh. by subst.
Qed.

Lemma insert_title_lookup (dict : gmap string Header) (L : list Header)
    (h : Header) :
  dict !! title h = None →
  (∀ t x, dict !! t = Some x ↔ x ∈ L ∧ title x = t) →
  (title h ∉ title <$> L) ∧
  (∀ t x, <[title h := h]> dict !! t = Some x ↔ x ∈ L ++ [h] ∧ title x = t).
Proof.
  intros Hnone Hdict.
  assert (Hfresh : title h ∉ title <$> L).
  { intros (h0 & Ht & Hin)%list_elem_of_fmap.
    assert (dict !! title h = Some h0) by (by apply Hdict).
    congruence. }
  split; [done|]. intros t x. rewrite elem_of_app, list_elem_of_singleton.
  destruct (decide (title h = t)) as [<-|Hne].
  - rewrite lookup_insert_eq. split.
    + intros [= <-]. split; [by right|done].
    + intros [[Hin| ->] Ht]; [|done]. exfalso. apply Hfresh.
      rewrite <- Ht. apply list_elem_of_fmap. by exists x.
  - rewrite lookup_insert_ne by done. rewrite Hdict. split.
    + intros [? ?]. split; [by left|done].
    + intros [[Hin| ->] Ht]; done.
Qed.

Lemma known_snoc (known : list string) (L : list Header) (h : Header) :
  known = title <$> List.filter is_ddt L →
  (if String.eqb (header_type h) "ddt" then known ++ [title h] else known) =
  title <$> List.filter is_ddt (L ++ [h]).
Proof.
  intros ->. rewrite filter_snoc, fmap_app.
  change (is_ddt h) with (String.eqb (header_type h) "ddt").
  destruct (String.eqb (header_type h) "ddt"); [done|].
  by rewrite app_nil_r.
Qed.

Lemma register_scheme_headers_holds (f : string) (hs : list Header)
    (st st' : scheme_state) (L : list Header) :
  register_scheme_headers f hs st = Ok st' →
  scheme_holds st L → scheme_holds st' (L ++ hs).
Proof.
  revert st L. induction hs as [|h hs IH]; intros st L; simpl.
  - intros [= <-]. by rewrite app_nil_r.
  - unfold register_scheme_header at 1.
    destruct (scheme_header_dict st !! title h) eqn:Hnone; [done|]. simpl.
    intros Hreg (Hl & Hnd & Hdict & Hk).
    replace (L ++ h :: hs) with ((L ++ [h]) ++ hs) by (by rewrite <- app_assoc).
    apply (IH _ _ Hreg).
    destruct (insert_title_lookup _ L h Hnone Hdict) as [Hfresh Hdict'].
    split; [simpl; by rewrite Hl|]. split; [by apply titles_snoc_fresh|].
    split; [exact Hdict'|]. simpl. by apply known_snoc.
Qed.

Lemma register_host_headers_holds (f : string) (hs : list Header)
    (st st' : host_state) (L : list Header) :
  register_host_headers f hs st = Ok st' →
  host_holds st L → host_holds st' (L ++ hs).
Proof.
  revert st L. induction hs as [|h hs IH]; intros st L; simpl.
  - intros [= <-]. by rewrite app_nil_r.
  - unfold register_host_header at 1.
    destruct (host_meta_headers st !! title h) eqn:Hnone; [done|]. simpl.
    intros Hreg (Hnd & Hdict & Hk).
    replace (L ++ h :: hs) with ((L ++ [h]) ++ hs) by (by rewrite <- app_assoc).
    apply (IH _ _ Hreg).
    destruct (insert_title_lookup _ L h Hnone Hdict) as [Hfresh Hdict'].
    split; [by apply titles_snoc_fresh|].
    split; [exact Hdict'|]. simpl. by apply known_snoc.
Qed.

Lemma parsed_headers_snoc
    (pmf : string → list string → result (list Header))
    (calls : list parse_call) (f : string) (k : list string)
    (hs : list Header) :
  pmf f k = Ok hs →
  parsed_headers pmf (calls ++ [(f, k)]) = parsed_headers pmf calls ++ hs.
Proof.
  intros Hp. unfold parsed_headers.
  rewrite fmap_app, concat_app. simpl. by rewrite Hp, app_nil_r.
Qed.

Section ContentFacts.

Variable conv : Header → Var → list string.
Variable pmf : string → list string → result (list Header).
Variable pff : string → string → result (list Header).
Variable pe : string → bool.

Lemma scheme_file_holds (pd : string) (st st' : scheme_state) (f : string)
    (calls calls' : list parse_call) (L : list Header) :
  scheme_file conv pmf pff pe pd st f calls = (calls', Ok st') →
  scheme_holds st L →
  ∃ hs, calls' = calls ++ [(f, scheme_known_ddts st)] ∧
        pmf f (scheme_known_ddts st) = Ok hs ∧ scheme_holds st' (L ++ hs).
Proof.
  unfold scheme_file, call_parse_metadata_file, no_call, mbind, run_bind.
  destruct (pmf f (scheme_known_ddts st)) as [hs| |]; [|done..]. simpl.
  destruct (find_associated_fortran_file pe f) as [ff| |]; simpl; [|done..].
  destruct (pff ff pd) as [fhs| |]; simpl; [|done..].
  destruct (check_fortran_against_metadata conv hs fhs f ff) as [[]| |];
    simpl; [|done..].
  intros [= <- Hreg] Hholds. exists hs. split; [done|]. split; [done|].
  by eapply register_scheme_headers_holds.
Qed.

Lemma host_file_holds (pd : string) (st st' : host_state) (f : string)
    (calls calls' : list parse_call) (L : list Header) :
  host_file conv pmf pff pe pd st f calls = (calls', Ok st') →
  host_holds st L →
  ∃ hs, calls' = calls ++ [(f, host_known_ddts st)] ∧
        pmf f (host_known_ddts st) = Ok hs ∧ host_holds st' (L ++ hs).
Proof.
  unfold host_file, call_parse_metadata_file, no_call, mbind, run_bind.
  destruct (pmf f (host_known_ddts st)) as [hs| |]; [|done..]. simpl.
  destruct (find_associated_fortran_file pe f) as [ff| |]; simpl; [|done..].
  destruct (pff ff pd) as [fhs| |]; simpl; [|done..].
  destruct (check_fortran_against_metadata conv hs fhs f ff) as [[]| |];
    simpl; [|done..].
  intros [= <- Hreg] Hholds. exists hs. split; [done|]. split; [done|].
  by eapply register_host_headers_holds.
Qed.

Lemma scheme_files_loop_holds (pd : string) (files : list string)
    (st st' : scheme_state) (calls calls' : list parse_call) (L : list Header) :
  scheme_files_loop conv pmf pff pe pd files st calls = (calls', Ok st') →
  scheme_holds st L →
  ∃ new, calls' = calls ++ new ∧ new.*1 = files ∧
         scheme_holds st' (L ++ parsed_headers pmf new).
Proof.
  revert st calls L. induction files as [|f files IH]; intros st calls L; simpl.
  - intros [= <- <-] Hh. exists []. by rewrite !app_nil_r.
  - unfold mbind, run_bind.
    destruct (scheme_file conv pmf pff pe pd st f calls) as [c1 [st1| |]] eqn:H1;
      [|done..].
    intros Hloop Hh.
    destruct (scheme_file_holds _ _ _ _ _ _ _ H1 Hh) as (hs & -> & Hp & Hh1).
    destruct (IH _ _ _ Hloop Hh1) as (new & -> & Hn & Hh').
    exists ((f, scheme_known_ddts st) :: new).
    split; [by rewrite <- app_assoc|]. split; [by rewrite fmap_cons, Hn|].
    replace (parsed_headers pmf ((f, scheme_known_ddts st) :: new))
      with (hs ++ parsed_headers pmf new); [by rewrite app_assoc|].
    unfold parsed_headers. rewrite fmap_cons. simpl. by rewrite Hp.
Qed.

Lemma host_files_loop_holds (pd : string) (files : list string)
    (st st' : host_state) (calls calls' : list parse_call) (L : list Header) :
  host_files_loop conv pmf pff pe pd files st calls = (calls', Ok st') →
  host_holds st L →
  ∃ new, calls' = calls ++ new ∧ new.*1 = files ∧
         host_holds st' (L ++ parsed_headers pmf new).
Proof.
  revert st calls L. induction files as [|f files IH]; intros st calls L; simpl.
  - intros [= <- <-] Hh. exists []. by rewrite !app_nil_r.
  - unfold mbind, run_bind.
    destruct (host_file conv pmf pff pe pd st f calls) as [c1 [st1| |]] eqn:H1;
      [|done..].
    intros Hloop Hh.
    destruct (host_file_holds _ _ _ _ _ _ _ H1 Hh) as (hs & -> & Hp & Hh1).
    destruct (IH _ _ _ Hloop Hh1) as (new & -> & Hn & Hh').
    exists ((f, host_known_ddts st) :: new).
    split; [by rewrite <- app_assoc|]. split; [by rewrite fmap_cons, Hn|].
    replace (parsed_headers pmf ((f, host_known_ddts st) :: new))
      with (hs ++ parsed_headers pmf new); [by rewrite app_assoc|].
    unfold parsed_headers. rewrite fmap_cons. simpl. by rewrite Hp.
Qed.

Lemma scheme_holds_init :
  scheme_holds {| scheme_meta_headers := []; scheme_header_dict := ∅;
                  scheme_known_ddts := [] |} [].
Proof.
  split; [done|]. split; [apply NoDup_nil_2|]. split; [|done].
  intros t h. simpl. rewrite lookup_empty. split; [done|].
  by intros [?%elem_of_nil _].
Qed.

Lemma host_holds_init :
  host_holds {| host_meta_headers := ∅; host_known_ddts := [] |} [].
Proof.
  split; [apply NoDup_nil_2|]. split; [|done].
  intros t h. simpl. rewrite lookup_empty. split; [done|].
  by intros [?%elem_of_nil _].
Qed.

(** When [parse_scheme_files] returns, the parser was called once for every
    file, in their order; the list returned is the headers of these calls
    in the order in which they were parsed, their titles are pairwise
    distinct, and the dict finds every one of them under its title. *)
Theorem parse_scheme_files_contents (files : list string) (pd : string)
    (calls calls' : list parse_call) (st : scheme_state) :
  parse_scheme_files conv pmf pff pe files pd calls = (calls', Ok st) →
  ∃ new, calls' = calls ++ new ∧ new.*1 = files ∧
         scheme_meta_headers st = parsed_headers pmf new ∧
         NoDup (title <$> scheme_meta_headers st) ∧
         ∀ h, h ∈ scheme_meta_headers st →
              scheme_header_dict st !! title h = Some h.
Proof.
  intros Hrun.
  destruct (scheme_files_loop_holds _ _ _ _ _ _ _ Hrun scheme_holds_init)
    as (new & -> & Hn & Hl & Hnd & Hdict & _).
  simpl in *. exists new. split; [done|]. split; [done|]. split; [done|].
  rewrite Hl. split; [done|]. intros h Hin. by apply Hdict.
Qed.

(** When [parse_host_model_files] returns, the parser was called once for
    every file, in their order; the headers of these calls have pairwise
    distinct titles, and the title map holds exactly these headers, each
    under its title. *)
Theorem parse_host_model_files_contents (files : list string) (pd : string)
    (calls calls' : list parse_call) (st : host_state) :
  parse_host_model_files conv pmf pff pe files pd calls = (calls', Ok st) →
  ∃ new, calls' = calls ++ new ∧ new.*1 = files ∧
         NoDup (title <$> parsed_headers pmf new) ∧
         ∀ t h, host_meta_headers st !! t = Some h ↔
                h ∈ parsed_headers pmf new ∧ title h = t.
Proof.
  intros Hrun.
  destruct (host_files_loop_holds _ _ _ _ _ _ _ Hrun host_holds_init)
    as (new & -> & Hn & Hnd & Hdict & _).
  simpl in *. by exists new.
Qed.

(** The known derived types are the titles of the ddt headers registered,
    in the order of their registration and each once: at the return of
    [parse_host_model_files] those of the headers of its calls, at the
    return of [parse_scheme_files] those of the list it returns. *)
Theorem known_ddts_are_registered (files : list string) (pd : string)
    (calls calls' : list parse_call) :
  (∀ st, parse_host_model_files conv pmf pff pe files pd calls = (calls', Ok st) →
         host_known_ddts st =
           title <$> List.filter is_ddt
                       (parsed_headers pmf (drop (length calls) calls')) ∧
         NoDup (host_known_ddts st)) ∧
  (∀ st, parse_scheme_files conv pmf pff pe files pd calls = (calls', Ok st) →
         scheme_known_ddts st =
           title <$> List.filter is_ddt (scheme_meta_headers st) ∧
         NoDup (scheme_known_ddts st)).
Proof.
  assert (Hsub : ∀ L : list Header,
            NoDup (title <$> L) → NoDup (title <$> List.filter is_ddt L)).
  { intros L HL. eapply sublist_NoDup; [exact HL|].
    apply fmap_sublist. clear HL.
    induction L as [|h L IH]; simpl; [done|].
    destruct (is_ddt h); [by apply sublist_skip|by apply sublist_cons]. }
  split; intros st Hrun.
  - destruct (host_files_loop_holds _ _ _ _ _ _ _ Hrun host_holds_init)
      as (new & -> & Hn & Hnd & Hdict & Hk).
    simpl in *. rewrite drop_app_length, Hk. split; [done|]. by apply Hsub.
  - destruct (scheme_files_loop_holds _ _ _ _ _ _ _ Hrun scheme_holds_init)
      as (new & -> & Hn & Hl & Hnd & Hdict & Hk).
    simpl in *. rewrite Hk, Hl. split; [done|]. by apply Hsub.
Qed.

(** *** What is passed to the parser *)

Lemma host_files_loop_known (pd : string) (files : list string)
    (st : host_state) (L : list Header) :
  host_holds st L →
  ∃ new r,
    (∀ calls, host_files_loop conv pmf pff pe pd files st calls =
              (calls ++ new, r)) ∧
    (∀ j c, new !! j = Some c →
            c.2 = title <$> List.filter is_ddt
                              (L ++ parsed_headers pmf (take j new))) ∧
    (length new ≤ length files)%nat ∧
    (∀ st', r = Ok st' → length new = length files).
Proof.
  revert st L. induction files as [|f files IH]; intros st L Hh.
  - exists [], (Ok st). split; [by intros calls; rewrite app_nil_r|].
    split; [by intros j c; rewrite lookup_nil|]. done.
  - destruct (host_file_calls conv pmf pff pe pd st f) as (r1 & Hf & _).
    assert (Hk0 : host_known_ddts st =
                  title <$> List.filter is_ddt (L ++ parsed_headers pmf [])).
    { pose proof Hh as (_ & _ & Hk). unfold parsed_headers. simpl.
      by rewrite app_nil_r. }
    destruct r1 as [st1|msg|].
    + destruct (host_file_holds pd st st1 f [] _ L (Hf []) Hh)
        as (hs & _ & Hp & Hh1).
      destruct (IH st1 (L ++ hs) Hh1) as (new & r & Hloop & Hk & Hle & Hok).
      exists ((f, host_known_ddts st) :: new), r. split; [|split; [|split]].
      * intros calls. simpl. unfold mbind, run_bind.
        by rewrite Hf, Hloop, <- app_assoc.
      * intros [|j] c Hj; simpl in Hj.
        -- injection Hj as <-. exact Hk0.
        -- rewrite (Hk j c Hj). simpl take.
           replace (parsed_headers pmf ((f, host_known_ddts st) :: take j new))
             with (hs ++ parsed_headers pmf (take j new));
             [by rewrite app_assoc|].
           unfold parsed_headers. rewrite fmap_cons. simpl. by rewrite Hp.
      * simpl. lia.
      * intros st' Hst'. simpl. by rewrite (Hok st' Hst').
    + exists [(f, host_known_ddts st)], (CCPPError msg).
      split; [|split; [|split]]; [| |simpl; lia|done].
      * intros calls. simpl. unfold mbind, run_bind. by rewrite Hf.
      * intros [|j] c Hj; simpl in Hj; [|by rewrite lookup_nil in Hj].
        injection Hj as <-. exact Hk0.
    + exists [(f, host_known_ddts st)], FormatError.
      split; [|split; [|split]]; [| |simpl; lia|done].
      * intros calls. simpl. unfold mbind, run_bind. by rewrite Hf.
      * intros [|j] c Hj; simpl in Hj; [|by rewrite lookup_nil in Hj].
        injection Hj as <-. exact Hk0.
Qed.

Lemma scheme_files_loop_known (pd : string) (files : list string)
    (st : scheme_state) (L : list Header) :
  scheme_holds st L →
  ∃ new r,
    (∀ calls, scheme_files_loop conv pmf pff pe pd files st calls =
              (calls ++ new, r)) ∧
    (∀ j c, new !! j = Some c →
            c.2 = title <$> List.filter is_ddt
                              (L ++ parsed_headers pmf (take j new))) ∧
    (length new ≤ length files)%nat ∧
    (∀ st', r = Ok st' → length new = length files).
Proof.
  revert st L. induction files as [|f files IH]; intros st L Hh.
  - exists [], (Ok st). split; [by intros calls; rewrite app_nil_r|].
    split; [by intros j c; rewrite lookup_nil|]. done.
  - destruct (scheme_file_calls conv pmf pff pe pd st f) as (r1 & Hf & _).
    assert (Hk0 : scheme_known_ddts st =
                  title <$> List.filter is_ddt (L ++ parsed_headers pmf [])).
    { pose proof Hh as (_ & _ & _ & Hk). unfold parsed_headers. simpl.
      by rewrite app_nil_r. }
    destruct r1 as [st1|msg|].
    + destruct (scheme_file_holds pd st st1 f [] _ L (Hf []) Hh)
        as (hs & _ & Hp & Hh1).
      destruct (IH st1 (L ++ hs) Hh1) as (new & r & Hloop & Hk & Hle & Hok).
      exists ((f, scheme_known_ddts st) :: new), r.
      split; [|split; [|split]].
      * intros calls. simpl. unfold mbind, run_bind.
        by rewrite Hf, Hloop, <- app_assoc.
      * intros [|j] c Hj; simpl in Hj.
        -- injection Hj as <-. exact Hk0.
        -- rewrite (Hk j c Hj). simpl take.
           replace (parsed_headers pmf
                      ((f, scheme_known_ddts st) :: take j new))
             with (hs ++ parsed_headers pmf (take j new));
             [by rewrite app_assoc|].
           unfold parsed_headers. rewrite fmap_cons. simpl. by rewrite Hp.
      * simpl. lia.
      * intros st' Hst'. simpl. by rewrite (Hok st' Hst').
    + exists [(f, scheme_known_ddts st)], (CCPPError msg).
      split; [|split; [|split]]; [| |simpl; lia|done].
      * intros calls. simpl. unfold mbind, run_bind. by rewrite Hf.
      * intros [|j] c Hj; simpl in Hj; [|by rewrite lookup_nil in Hj].
        injection Hj as <-. exact Hk0.
    + exists [(f, scheme_known_ddts st)], FormatError.
      split; [|split; [|split]]; [| |simpl; lia|done].
      * intros calls. simpl. unfold mbind, run_bind. by rewrite Hf.
      * intros [|j] c Hj; simpl in Hj; [|by rewrite lookup_nil in Hj].
        injection Hj as <-. exact Hk0.
Qed.

Lemma known_from_earlier_nil : known_from_earlier pmf [].
Proof. intros j c Hj. by rewrite lookup_nil in Hj. Qed.

(** What a call is given comes from a ddt header of an earlier call. *)
Lemma known_from_earlier_only (calls : list parse_call) :
  known_from_earlier pmf calls →
  ∀ j c t, calls !! j = Some c → t ∈ c.2 →
    ∃ h, h ∈ parsed_headers pmf (take j calls) ∧
         header_type h = "ddt" ∧ title h = t.
Proof.
  intros Hk j c t Hj Ht. rewrite (Hk j c Hj) in Ht. unfold ddt_titles in Ht.
  apply list_elem_of_fmap in Ht as (h & -> & Hin).
  apply list_elem_of_In, List.filter_In in Hin as [Hin Hd].
  exists h. split; [by apply list_elem_of_In|]. split; [|done].
  unfold is_ddt in Hd. by apply String.eqb_eq.
Qed.

(** The host files and the scheme files each start from no known type, and
    each call is given just the ddt titles of the earlier calls of its own
    pass. *)
Lemma capgen_parse_known (host_files scheme_files : list string)
    (pd : string) :
  let out := capgen_parse conv pmf pff pe host_files scheme_files pd [] in
  known_from_earlier pmf (host_calls host_files out.1) ∧
  known_from_earlier pmf (scheme_calls host_files out.1).
Proof.
  unfold capgen_parse, parse_host_model_files, parse_scheme_files,
    host_calls, scheme_calls, mbind, run_bind.
  destruct (host_files_loop_known pd host_files _ [] host_holds_init)
    as (hnew & hr & Hh & Hhk & Hhle & Hhok).
  rewrite Hh. simpl in *.
  destruct hr as [hst|msg|].
  - destruct (scheme_files_loop_known pd scheme_files _ [] scheme_holds_init)
      as (snew & sr & Hs & Hsk & _ & _).
    rewrite Hs. simpl in *.
    pose proof (Hhok hst eq_refl) as Hlen.
    destruct sr as [sst|m|]; simpl;
      rewrite take_app_length', drop_app_length' by done; by split.
  - simpl. rewrite take_ge, drop_ge by done.
    split; [exact Hhk|apply known_from_earlier_nil].
  - simpl. rewrite take_ge, drop_ge by done.
    split; [exact Hhk|apply known_from_earlier_nil].
Qed.

(** C2 (as amended): in every run the parser is called for the host files
    in their order and then, when these have all gone through, for the
    scheme files in their order.  Among the calls for the host files, and
    among the calls for the scheme files, the title of a ddt header of the
    file of an earlier call is in the known derived types passed to every
    later call.  The host files and the scheme files each start from no
    known type, and what is passed to a call is exactly the ddt titles of
    the earlier calls of its own pass, in their order: a title is passed to
    the parse of a scheme file only when a ddt header of an earlier scheme
    file has it, so a ddt that only host files declare is never passed to
    a scheme file. *)
Theorem ddt_forward_visibility (host_files scheme_files : list string)
    (pd : string) :
  let out := capgen_parse conv pmf pff pe host_files scheme_files pd [] in
  let hcalls := host_calls host_files out.1 in
  let scalls := scheme_calls host_files out.1 in
  ddts_visible pmf hcalls ∧ ddts_visible pmf scalls ∧
  hcalls.*1 `prefix_of` host_files ∧ scalls.*1 `prefix_of` scheme_files ∧
  (∀ c, head hcalls = Some c → c.2 = []) ∧
  (∀ c, head scalls = Some c → c.2 = []) ∧
  (∀ v, out.2 = Ok v → hcalls.*1 = host_files ∧ scalls.*1 = scheme_files) ∧
  known_from_earlier pmf hcalls ∧ known_from_earlier pmf scalls ∧
  (∀ j c t, scalls !! j = Some c → t ∈ c.2 →
     ∃ h, h ∈ parsed_headers pmf (take j scalls) ∧
          header_type h = "ddt" ∧ title h = t).
Proof.
  intros out hcalls scalls.
  destruct (capgen_parse_calls conv pmf pff pe host_files scheme_files pd)
    as (H1 & H2 & H3 & H4 & H5 & H6 & H7).
  destruct (capgen_parse_known host_files scheme_files pd) as (H8 & H9).
  repeat (split; [done|]).
  by apply known_from_earlier_only.
Qed.

End ContentFacts.

Lemma ddt_forward_visibility_witness :
  demo_run ["host.meta"; "host_mod.meta"] ["types.meta"; "foo.meta"] =
    ([("host.meta", []); ("host_mod.meta", ["state_type"]);
      ("types.meta", []); ("foo.meta", ["state_type"])],
     Ok ({| host_meta_headers :=
              <["host_mod" := host_mod_header]>
                (<["state_type" := state_type_header]> ∅);
            host_known_ddts := ["state_type"] |},
         {| scheme_meta_headers := [state_type_header; foo_run_header];
            scheme_header_dict :=
              <["foo_run" := foo_run_header]>
                (<["state_type" := state_type_header]> ∅);
            scheme_known_ddts := ["state_type"] |})) ∧
  known_from_earlier demo_parse_metadata_file
    [("host.meta", []); ("host_mod.meta", ["state_type"])] ∧
  known_from_earlier demo_parse_metadata_file
    [("types.meta", []); ("foo.meta", ["state_type"])].
Proof.
  split; [reflexivity|].
  pose proof (ddt_forward_visibility dims_as_declared
                demo_parse_metadata_file demo_parse_fortran_file
                demo_path_exists ["host.meta"; "host_mod.meta"]
                ["types.meta"; "foo.meta"] "") as H.
  destruct H as (_ & _ & _ & _ & _ & _ & _ & Hh & Hs & _).
  split; [exact Hh|exact Hs].
Defined.

Lemma parse_scheme_files_contents_witness :
  NoDup (title <$> [state_type_header; foo_run_header]).
Proof.
  destruct (parse_scheme_files_contents dims_as_declared
              demo_parse_metadata_file demo_parse_fortran_file demo_path_exists
              ["types.meta"; "foo.meta"] "" []
              [("types.meta", []); ("foo.meta", ["state_type"])]
              {| scheme_meta_headers := [state_type_header; foo_run_header];
                 scheme_header_dict :=
                   <["foo_run" := foo_run_header]>
                     (<["state_type" := state_type_header]> ∅);
                 scheme_known_ddts := ["state_type"] |} eq_refl)
    as (new & _ & _ & _ & Hnd & _).
  exact Hnd.
Defined.

Lemma parse_host_model_files_contents_witness :
  NoDup (title <$> parsed_headers demo_parse_metadata_file
                     [("host.meta", []); ("host_mod.meta", ["state_type"])]).
Proof.
  destruct (parse_host_model_files_contents dims_as_declared
              demo_parse_metadata_file demo_parse_fortran_file demo_path_exists
              ["host.meta"; "host_mod.meta"] "" []
              [("host.meta", []); ("host_mod.meta", ["state_type"])]
              {| host_meta_headers :=
                   <["host_mod" := host_mod_header]>
                     (<["state_type" := state_type_header]> ∅);
                 host_known_ddts := ["state_type"] |} eq_refl)
    as (new & Hc & _ & Hnd & _).
  simpl in Hc. by subst new.
Defined.

Lemma known_ddts_are_registered_witness :
  ["state_type"] =
    title <$> List.filter is_ddt
                (parsed_headers demo_parse_metadata_file
                   [("host.meta", []); ("host_mod.meta", ["state_type"])]) ∧
  NoDup ["state_type"].
Proof.
  apply (proj1 (known_ddts_are_registered dims_as_declared
                  demo_parse_metadata_file demo_parse_fortran_file
                  demo_path_exists ["host.meta"; "host_mod.meta"] "" []
                  [("host.meta", []); ("host_mod.meta", ["state_type"])])
           {| host_meta_headers :=
                <["host_mod" := host_mod_header]>
                  (<["state_type" := state_type_header]> ∅);
              host_known_ddts := ["state_type"] |}).
  reflexivity.
Defined.

(** ** A file that fails ends the run *)

Section StopFacts.

Variable conv : Header → Var → list string.
Variable pmf : string → list string → result (list Header).
Variable pff : string → string → result (list Header).
Variable pe : string → bool.

Lemma host_files_loop_stops (pd : string) (pre post : list string) (f : string)
    (st st1 : host_state) (calls c1 c2 : list parse_call)
    (r : result host_state) :
  host_files_loop conv pmf pff pe pd pre st calls = (c1, Ok st1) →
  host_file conv pmf pff pe pd st1 f c1 = (c2, r) → raises r →
  host_files_loop conv pmf pff pe pd (pre ++ f :: post) st calls = (c2, r).
Proof.
  revert st calls. induction pre as [|g pre IH]; intros st calls; simpl.
  - intros [= <- <-] Hf Hr. unfold mbind, run_bind. rewrite Hf.
    by destruct r.
  - unfold mbind, run_bind.
    destruct (host_file conv pmf pff pe pd st g calls) as [c [st'| |]];
      [|done..].
    apply IH.
Qed.

Lemma scheme_files_loop_stops (pd : string) (pre post : list string)
    (f : string) (st st1 : scheme_state) (calls c1 c2 : list parse_call)
    (r : result scheme_state) :
  scheme_files_loop conv pmf pff pe pd pre st calls = (c1, Ok st1) →
  scheme_file conv pmf pff pe pd st1 f c1 = (c2, r) → raises r →
  scheme_files_loop conv pmf pff pe pd (pre ++ f :: post) st calls = (c2, r).
Proof.
  revert st calls. induction pre as [|g pre IH]; intros st calls; simpl.
  - intros [= <- <-] Hf Hr. unfold mbind, run_bind. rewrite Hf.
    by destruct r.
  - unfold mbind, run_bind.
    destruct (scheme_file conv pmf pff pe pd st g calls) as [c [st'| |]];
      [|done..].
    apply IH.
Qed.

(** The first file that raises, whatever it raises, ends the run with that
    exception: when the host files before it have gone through, no later
    host file and no scheme file is parsed; when all the host files and the
    scheme files before it have gone through, no later scheme file is
    parsed.  The last call of the parser is the one for the file that
    raised. *)
Theorem first_failure_ends_run (pd : string) (f : string)
    (pre post : list string) (c1 c2 : list parse_call) :
  (∀ scheme_files calls st1 (r : result host_state),
     parse_host_model_files conv pmf pff pe pre pd calls = (c1, Ok st1) →
     host_file conv pmf pff pe pd st1 f c1 = (c2, r) → raises r →
     let out := capgen_parse conv pmf pff pe (pre ++ f :: post) scheme_files
                  pd calls in
     out.1 = c2 ∧ same_failure r out.2 ∧
     c2 = c1 ++ [(f, host_known_ddts st1)]) ∧
  (∀ host_files calls c0 hst st1 (r : result scheme_state),
     parse_host_model_files conv pmf pff pe host_files pd calls = (c0, Ok hst) →
     parse_scheme_files conv pmf pff pe pre pd c0 = (c1, Ok st1) →
     scheme_file conv pmf pff pe pd st1 f c1 = (c2, r) → raises r →
     let out := capgen_parse conv pmf pff pe host_files (pre ++ f :: post)
                  pd calls in
     out.1 = c2 ∧ same_failure r out.2 ∧
     c2 = c1 ++ [(f, scheme_known_ddts st1)]).
Proof.
  split.
  - intros sf calls st1 r Hpre Hf Hr. simpl.
    split; [|split].
    + unfold capgen_parse, parse_host_model_files in *.
      unfold mbind at 1, run_bind at 1.
      rewrite (host_files_loop_stops pd pre post f _ st1 calls c1 c2 r)
        by done.
      by destruct r.
    + unfold capgen_parse, parse_host_model_files in *.
      unfold mbind at 1, run_bind at 1.
      rewrite (host_files_loop_stops pd pre post f _ st1 calls c1 c2 r)
        by done.
      by destruct r.
    + destruct (host_file_calls conv pmf pff pe pd st1 f) as (r' & Hr' & _).
      rewrite Hr' in Hf. by injection Hf as <- _.
  - intros hf calls c0 hst st1 r Hh Hpre Hf Hr. simpl.
    split; [|split].
    + unfold capgen_parse. unfold mbind at 1, run_bind at 1. rewrite Hh.
      unfold parse_scheme_files in *. unfold mbind at 1, run_bind at 1.
      rewrite (scheme_files_loop_stops pd pre post f _ st1 c0 c1 c2 r)
        by done.
      by destruct r.
    + unfold capgen_parse. unfold mbind at 1, run_bind at 1. rewrite Hh.
      unfold parse_scheme_files in *. unfold mbind at 1, run_bind at 1.
      rewrite (scheme_files_loop_stops pd pre post f _ st1 c0 c1 c2 r)
        by done.
      by destruct r.
    + destruct (scheme_file_calls conv pmf pff pe pd st1 f) as (r' & Hr' & _).
      rewrite Hr' in Hf. by injection Hf as <- _.
Qed.

End StopFacts.

Lemma first_failure_ends_run_witness :
  (demo_run ["host.meta"; "nowhere.meta"; "host_mod.meta"] ["foo.meta"]).1 =
    [("host.meta", []); ("nowhere.meta", ["state_type"])] ∧
  same_failure (A := host_state) (CCPPError "cannot read nowhere.meta")
    (demo_run ["host.meta"; "nowhere.meta"; "host_mod.meta"] ["foo.meta"]).2 ∧
  [("host.meta", []); ("nowhere.meta", ["state_type"])] =
    [("host.meta", [])] ++ [("nowhere.meta", ["state_type"])].
Proof.
  apply (proj1 (first_failure_ends_run dims_as_declared demo_parse_metadata_file
                  demo_parse_fortran_file demo_path_exists "" "nowhere.meta"
                  ["host.meta"] ["host_mod.meta"]
                  [("host.meta", [])]
                  [("host.meta", []); ("nowhere.meta", ["state_type"])])
           ["foo.meta"] []
           {| host_meta_headers := <["state_type" := state_type_header]> ∅;
              host_known_ddts := ["state_type"] |}
           (CCPPError "cannot read nowhere.meta")).
  - reflexivity.
  - reflexivity.
  - exact I.
Defined.

(** A host file whose pairing ends in the exception of [str.format] ends
    the run as well: the files after it are not parsed. *)
Example format_error_ends_run :
  capgen_parse dims_as_declared (λ _ _, Ok run_only)
    (λ _ _, Ok three_routines) (λ _, true)
    ["foo{}.meta"; "bar.meta"] ["baz.meta"] "" [] =
  ([("foo{}.meta", [])], FormatError).
Proof. reflexivity. Qed.

(** ** The removal of the generated files *)

Section CleanFacts.

Variable World : Type.
Variable os_remove : string → World → World * bool.
Variable os_path_exists : string → World → bool.
Variable readlines : string → World → list string.
Variable isabs : string → bool.
Variable dirname_abspath : string → string.
Variable normpath_join : string → string → string.





End CleanFacts.

(** The comment, the blank line and the line that starts with [!] are
    passed over; the removal that fails does not stop the others. *)
Example toy_clean_run :
  toy_clean ["/out/datatable.xml"; "/build/kinds.F90"; "/out/old_cap.F90"] =
  {| clean_world := ["/out/old_cap.F90"];
     clean_tried := ["/out/foo_cap.F90"; "/build/kinds.F90";
                     "/out/datatable.xml"];
     clean_success := false |}.
Proof. reflexivity. Qed.

(** ** The files that are accepted *)

Section AcceptFacts.

Variable conv : Header → Var → list string.

Lemma compare_headers_inv (d : list (Header * Header)) (e e' : string) :
  compare_headers conv d e = Ok e' →
  ∃ ds, Forall2 (λ p diag, compare_fheader_to_mheader conv p.1 p.2 = Ok diag)
          d ds ∧
        e' = e +:+ concat_all ds.
Proof.
  revert e. induction d as [|[m f] d IH]; intros e; simpl.
  - intros [= <-]. exists []. split; [done|]. by rewrite app_nil_r_s.
  - destruct (compare_fheader_to_mheader conv m f) as [diag| |] eqn:Hc;
      simpl; [|done..].
    intros H. destruct (IH _ H) as (ds & HF & ->).
    exists (diag :: ds). split; [by constructor|].
    simpl. by rewrite app_assoc_s.
Qed.

(** [check_fortran_against_metadata] returns without an error exactly when
    the headers of the file are paired and the comparison of every pair
    returns the empty string. *)
Theorem file_accepted_iff (ms fs : list Header) (mf ff : string) :
  check_fortran_against_metadata conv ms fs mf ff = Ok () ↔
  ∃ d, pair_all ms fs mf ff = Ok d ∧
       Forall (λ p, compare_fheader_to_mheader conv p.1 p.2 = Ok "") d.
Proof.
  unfold check_fortran_against_metadata. split.
  - destruct (pair_all ms fs mf ff) as [d| |]; simpl; [|done..].
    destruct (compare_headers conv d "") as [errors| |] eqn:Hc; simpl;
      [|done..].
    destruct (nonempty errors) eqn:Hne; [done|]. intros _.
    exists d. split; [done|].
    apply compare_headers_inv in Hc as (ds & HF & ->).
    change ("" +:+ concat_all ds) with (concat_all ds) in Hne.
    assert (Hall : Forall (λ diag, diag = "") ds).
    { apply Forall_forall. intros diag Hin.
      destruct (decide (diag = "")) as [|Hd]; [done|].
      assert (nonempty (concat_all ds) = true); [|congruence].
      apply concat_all_nonempty, Exists_exists. eauto. }
    clear Hne. induction HF as [|p diag d ds Hp _ IH]; [done|].
    apply Forall_cons in Hall as [-> Hall]. constructor; [done|by apply IH].
  - intros (d & -> & Hall). simpl.
    assert (HF : Forall2 (λ p diag,
                   compare_fheader_to_mheader conv p.1 p.2 = Ok diag)
                   d (replicate (length d) "")).
    { induction Hall; simpl; by constructor. }
    rewrite (compare_headers_Ok conv d _ "" HF). simpl.
    assert (Hempty : ∀ n, concat_all (replicate n "") = "")
      by (intros n; by induction n).
    by rewrite Hempty.
Qed.

End AcceptFacts.

Lemma file_accepted_iff_witness :
  check_fortran_against_metadata dims_as_declared
    foo_meta_headers foo_fort_headers "foo.meta" "foo.F90" = Ok ().
Proof.
  apply file_accepted_iff.
  exists (zip foo_meta_headers foo_meta_headers).
  split; [reflexivity|]. repeat constructor.
Defined.
